(** * boneIO: the MQTT connection supervisor and the Modbus hub

    A shallow embedding of [boneio/mqtt_client.py] and [boneio/modbus.py].
    Python methods become computations in a small monad that threads the
    object ([self]), records the operations the method performs and ends
    by returning, by raising or suspended at an [await]. *)

From Stdlib Require Import ZArith List String Bool Lia.
From Stdlib Require Import Floats.SpecFloat.
Import ListNotations.

Local Open Scope string_scope.
Local Open Scope list_scope.
Local Open Scope Z_scope.

(** ** Python exceptions and calls *)

Inductive exception : Type :=
| MqttError
| ModbusException
| AttributeError
| StructError
| CancelledError.

Definition exception_eqb (a b : exception) : bool :=
  match a, b with
  | MqttError, MqttError
  | ModbusException, ModbusException
  | AttributeError, AttributeError
  | StructError, StructError
  | CancelledError, CancelledError => true
  | _, _ => false
  end.

(** What a synchronous call into a library gives back. *)
Inductive call (A : Type) : Type :=
| Ok (a : A)
| Throw (e : exception).
Arguments Ok {A} a.
Arguments Throw {A} e.

(** How a method ends: it returns, it raises, or it is left suspended at an
    [await] that has not completed. *)
Inductive outcome (A : Type) : Type :=
| Returns (a : A)
| Raises (e : exception)
| Suspended.
Arguments Returns {A} a.
Arguments Raises {A} e.
Arguments Suspended {A}.

(** ** The method monad *)

Section MethodMonad.
Context {Self Event : Type}.

Definition M (A : Type) : Type := Self -> outcome A * Self * list Event.

Definition ret {A} (a : A) : M A := fun s => (Returns a, s, []).

Definition bind {A B} (m : M A) (k : A -> M B) : M B :=
  fun s =>
    match m s with
    | (Returns a, s1, t1) =>
        let '(o, s2, t2) := k a s1 in (o, s2, t1 ++ t2)
    | (Raises e, s1, t1) => (Raises e, s1, t1)
    | (Suspended, s1, t1) => (Suspended, s1, t1)
    end.

Definition raise {A} (e : exception) : M A := fun s => (Raises e, s, []).

Definition suspend {A} : M A := fun s => (Suspended, s, []).

Definition emit (ev : Event) : M unit := fun s => (Returns tt, s, [ev]).

Definition get_self : M Self := fun s => (Returns s, s, []).

Definition modify (f : Self -> Self) : M unit := fun s => (Returns tt, f s, []).

Definition of_call {A} (c : call A) : M A :=
  match c with
  | Ok a => ret a
  | Throw e => raise e
  end.

(** [try: body except E as err: handler err], for the exception classes
    that [catches] accepts. *)
Definition try_except {A} (body : M A) (catches : exception -> bool)
           (handler : exception -> M A) : M A :=
  fun s =>
    match body s with
    | (Raises e, s1, t1) =>
        if catches e
        then let '(o, s2, t2) := handler e s1 in (o, s2, t1 ++ t2)
        else (Raises e, s1, t1)
    | r => r
    end.

(** [try: body finally: cleanup]; the cleanup does not run for a method
    that never resumes. *)
Definition finally {A} (body : M A) (cleanup : M unit) : M A :=
  fun s =>
    match body s with
    | (Suspended, s1, t1) => (Suspended, s1, t1)
    | (o, s1, t1) =>
        match cleanup s1 with
        | (Returns _, s2, t2) => (o, s2, t1 ++ t2)
        | (Raises e, s2, t2) => (Raises e, s2, t1 ++ t2)
        | (Suspended, s2, t2) => (Suspended, s2, t1 ++ t2)
        end
    end.

Definition result_of {A} (r : outcome A * Self * list Event) : outcome A :=
  fst (fst r).
Definition self_of {A} (r : outcome A * Self * list Event) : Self :=
  snd (fst r).
Definition trace_of {A} (r : outcome A * Self * list Event) : list Event :=
  snd r.
End MethodMonad.

Arguments M : clear implicits.

Declare Scope method_scope.
Delimit Scope method_scope with method.
Notation "x <- m ;; k" := (bind m (fun x => k))
  (at level 61, m at next level, right associativity) : method_scope.
Notation "m ;; k" := (bind m (fun _ => k))
  (at level 61, right associativity) : method_scope.
Local Open Scope method_scope.

(** [triple P Q m R]: from an object that satisfies [P], the method [m]
    leaves an object that satisfies [P], performs only operations that
    satisfy [Q], and any value it returns satisfies [R]. *)
Definition triple {Self Event A : Type} (P : Self -> Prop) (Q : Event -> Prop)
           (m : M Self Event A) (R : A -> Prop) : Prop :=
  forall s, P s ->
    P (self_of (m s)) /\
    Forall Q (trace_of (m s)) /\
    (forall a, result_of (m s) = Returns a -> R a).

Definition anything {A : Type} : A -> Prop := fun _ => True.

(** Python truth values used by the source. *)
Definition int_truthy (n : Z) : bool := negb (n =? 0).

Definition optional_int_truthy (v : option Z) : bool :=
  match v with
  | None => false
  | Some n => int_truthy n
  end.

(** A bound method object ([self._pymodbus_connect] without a call) is
    always true. *)
Definition bound_method_truthy : bool := true.

(** ** pymodbus: the payload decoder called by [read_single_register] *)

Module Pymodbus.

(** [pymodbus.constants.Endian] *)
Inductive Endian : Type := Big | Little.

(** Modelled from the spec: the value of an IEEE-754 32-bit pattern
    (sign bit 31, exponent bits 30..23, fraction bits 22..0), which is what
    [struct.unpack] gives for the format [f]; the decoder is part of the
    pymodbus library and absent from the sources. *)
Definition binary32_of_bits (b : Z) : spec_float :=
  let s := Z.testbit b 31 in
  let e := Z.land (Z.shiftr b 23) 255 in
  let m := Z.land b 8388607 in
  if e =? 0 then
    if m =? 0 then S754_zero s else S754_finite s (Z.to_pos m) (-149)
  else if e =? 255 then
    if m =? 0 then S754_infinity s else S754_nan
  else S754_finite s (Z.to_pos (m + 8388608)) (e - 150).

(** [struct.pack(order + 'H', x)]: the two bytes of an unsigned 16-bit
    value; a value out of range is a [struct.error]. *)
Definition pack_H (order : Endian) (x : Z) : call (list Z) :=
  if (0 <=? x) && (x <? 65536) then
    let hi := Z.shiftr x 8 in
    let lo := Z.land x 255 in
    Ok (match order with Big => [hi; lo] | Little => [lo; hi] end)
  else Throw StructError.

(** [b''.join(pack(order + 'H', x) for x in xs)] *)
Fixpoint pack_words (order : Endian) (xs : list Z) : call (list Z) :=
  match xs with
  | [] => Ok []
  | x :: rest =>
      match pack_H order x with
      | Ok bytes =>
          match pack_words order rest with
          | Ok more => Ok (bytes ++ more)
          | Throw e => Throw e
          end
      | Throw e => Throw e
      end
  end.

(** [struct.unpack('!H', bytes)] *)
Definition unpack_H_network (b0 b1 : Z) : Z := Z.lor (Z.shiftl b0 8) b1.

(** [struct.unpack('!f', bytes)] *)
Definition unpack_f_network (bytes : list Z) : call spec_float :=
  match bytes with
  | [b0; b1; b2; b3] =>
      Ok (binary32_of_bits
            (Z.lor (Z.shiftl b0 24)
               (Z.lor (Z.shiftl b1 16) (Z.lor (Z.shiftl b2 8) b3))))
  | _ => Throw StructError
  end.

Record BinaryPayloadDecoder : Type := {
  _payload : list Z;
  _pointer : nat;
  _byteorder : Endian;
  _wordorder : Endian
}.

(** Modelled from the spec: registers are repacked into a flat byte
    string, each as a big-endian 16-bit value. *)
Definition fromRegisters (registers : list Z) (byteorder wordorder : Endian)
  : call BinaryPayloadDecoder :=
  match pack_words Big registers with
  | Ok payload =>
      Ok {| _payload := payload; _pointer := 0%nat;
            _byteorder := byteorder; _wordorder := wordorder |}
  | Throw e => Throw e
  end.

(** Modelled from the spec: the two words of a 32-bit value are read in
    network order, swapped for little-endian word order, and written back
    in the decoder's byte order. *)
Definition _unpack_words (d : BinaryPayloadDecoder) (handle : list Z)
  : call (list Z) :=
  match handle with
  | [b0; b1; b2; b3] =>
      let words := [unpack_H_network b0 b1; unpack_H_network b2 b3] in
      let ordered :=
        match _wordorder d with Little => rev words | Big => words end in
      pack_words (_byteorder d) ordered
  | _ => Throw StructError
  end.

(** Modelled from the spec: the next four bytes of the payload, word- and
    byte-ordered, read as one IEEE-754 32-bit value. *)
Definition decode_32bit_float (d : BinaryPayloadDecoder) : call spec_float :=
  let pointer := (_pointer d + 4)%nat in
  let handle := firstn 4 (skipn (pointer - 4) (_payload d)) in
  match _unpack_words d handle with
  | Ok bytes => unpack_f_network bytes
  | Throw e => Throw e
  end.

(** The two big-endian registers of a 32-bit value, as one bit pattern:
    the first register is the high word. *)
Definition register_pair_bits (first second : Z) : Z :=
  Z.lor (Z.shiftl first 16) second.

Definition is_register (x : Z) : Prop := 0 <= x < 65536.

End Pymodbus.

(** ** boneio/modbus.py *)

Module Modbus.

(** What [read_input_registers] gives back: a response that has the
    [registers] attribute, or one (an error response) that lacks it. *)
Record ModbusResponse : Type := {
  registers : option (list Z);
  str : string
}.

(** Modelled from the spec: the constant [REGISTERS] (boneio.const) is
    absent from the sources; it names the data field of a response, which
    an error response lacks. *)
Definition hasattr_registers (r : ModbusResponse) : bool :=
  match registers r with Some _ => true | None => false end.

(** The serial client of pymodbus, given by what its methods do. *)
Record BaseModbusClient : Type := {
  connect : call bool;
  close : call unit;
  read_input_registers : Z -> list (string * option Z) -> call ModbusResponse
}.

Record Uart : Type := { ID : string; RX : string; TX : string }.

Record Modbus : Type := {
  _uart : Uart;
  _client : option BaseModbusClient;
  _lock : bool (* [true] while some task holds the lock *)
}.

Definition set_client (c : option BaseModbusClient) (self : Modbus) : Modbus :=
  {| _uart := _uart self; _client := c; _lock := _lock self |}.

Definition set_lock (l : bool) (self : Modbus) : Modbus :=
  {| _uart := _uart self; _client := _client self; _lock := l |}.

Inductive event : Type :=
| ConfigurePin (pin : string)
| LockAcquire
| LockRelease
| ClientConnect
| ClientClose
| ClientReadInputRegisters (address : Z) (kwargs : list (string * option Z))
| LogError (msg : string)
| LogInfo (msg : string)
| LogWarning (msg : string).

Definition exception_text (e : exception) : string :=
  match e with
  | MqttError => "MqttError"
  | ModbusException => "ModbusException"
  | AttributeError => "AttributeError"
  | StructError => "struct.error"
  | CancelledError => "CancelledError"
  end.

Definition is_ModbusException : exception -> bool :=
  exception_eqb ModbusException.

(** [Modbus.__init__]: the constructor of the serial client may raise. *)
Definition __init__ (uart : Uart) (ModbusSerialClient : call BaseModbusClient)
  : outcome unit * Modbus * list event :=
  (emit (ConfigurePin (RX uart)) ;;
   emit (ConfigurePin (TX uart)) ;;
   try_except
     (c <- of_call ModbusSerialClient ;; modify (set_client (Some c)))
     is_ModbusException
     (fun e => emit (LogError (exception_text e))))
    {| _uart := uart; _client := None; _lock := false |}.

(** [async with self._lock: body] *)
Definition with_lock {A} (body : M Modbus event A) : M Modbus event A :=
  fun self =>
    if _lock self then (Suspended, self, [])
    else
      finally
        (modify (set_lock true) ;; emit LockAcquire ;; body)
        (modify (set_lock false) ;; emit LockRelease)
        self.

(** Attribute access on [self._client], an [AttributeError] on [None]. *)
Definition the_client : M Modbus event BaseModbusClient :=
  self <- get_self ;;
  match _client self with
  | Some c => ret c
  | None => raise AttributeError
  end.

Definition async_close : M Modbus event unit :=
  with_lock
    (self <- get_self ;;
     match _client self with
     | Some c =>
         try_except
           (emit ClientClose ;; of_call (close c))
           is_ModbusException
           (fun e => emit (LogError (exception_text e))) ;;
         modify (set_client None) ;;
         emit (LogWarning "modbus communication closed")
     | None => ret tt
     end).

Definition _pymodbus_connect : M Modbus event bool :=
  opened <-
    try_except
      (c <- the_client ;; emit ClientConnect ;; _ <- of_call (connect c) ;;
       ret true)
      is_ModbusException
      (fun e => emit (LogError (exception_text e)) ;; ret false) ;;
  if opened : bool
  then emit (LogInfo "modbus communication open") ;; ret true
  else ret false.

(** [{"unit": unit, "count": count} if unit else {}] *)
Definition kwargs_of (unit : option Z) (count : Z) : list (string * option Z) :=
  if optional_int_truthy unit
  then [("unit", unit); ("count", Some count)]
  else [].

(** [read_single_register]. The first test is on the method object
    [self._pymodbus_connect], which the source does not call. [None] is
    the "no reading" result. *)
Definition read_single_register (unit : option Z) (address count : Z)
  : M Modbus event (option spec_float) :=
  if negb bound_method_truthy then
    emit (LogError "Can't connect to Modbus.") ;; ret None
  else
    let kwargs := kwargs_of unit count in
    attempt <-
      try_except
        (c <- the_client ;;
         emit (ClientReadInputRegisters address kwargs) ;;
         result <- of_call (read_input_registers c address kwargs) ;;
         ret (Some result))
        is_ModbusException
        (fun e => emit (LogError (exception_text e)) ;; ret None) ;;
    match attempt with
    | None => ret None
    | Some result =>
        match registers result with
        | None => emit (LogError (str result)) ;; ret None
        | Some regs =>
            decoder <-
              of_call (Pymodbus.fromRegisters regs Pymodbus.Big Pymodbus.Big) ;;
            value <- of_call (Pymodbus.decode_32bit_float decoder) ;;
            ret (Some value)
        end
    end.

Definition read_multiple_registers (unit : option Z) (address count : Z)
  : M Modbus event (option ModbusResponse) :=
  if negb bound_method_truthy then
    emit (LogError "Can't connect to Modbus.") ;; ret None
  else
    let kwargs := kwargs_of unit count in
    attempt <-
      try_except
        (c <- the_client ;;
         emit (ClientReadInputRegisters address kwargs) ;;
         result <- of_call (read_input_registers c address kwargs) ;;
         ret (Some result))
        is_ModbusException
        (fun e => emit (LogError (exception_text e)) ;; ret None) ;;
    match attempt with
    | None => ret None
    | Some result =>
        match registers result with
        | None => emit (LogError (str result)) ;; ret None
        | Some _ => ret (Some result)
        end
    end.

(** The count the client works with: the [count] keyword when the call
    passes one, the client's own default otherwise. *)
Definition count_argument (client_default : Z)
           (kwargs : list (string * option Z)) : option Z :=
  match find (fun kv => String.eqb (fst kv) "count") kwargs with
  | Some (_, v) => v
  | None => Some client_default
  end.

(** Whether every bus operation of a trace happens between a
    [LockAcquire] and the matching [LockRelease]; [held] tells whether the
    lock is held where the trace starts. *)
Fixpoint io_under_lock (held : bool) (t : list event) : bool :=
  match t with
  | [] => true
  | LockAcquire :: rest => io_under_lock true rest
  | LockRelease :: rest => io_under_lock false rest
  | ClientConnect :: rest
  | ClientReadInputRegisters _ _ :: rest => held && io_under_lock held rest
  | _ :: rest => io_under_lock held rest
  end.

Definition is_lock_event (ev : event) : bool :=
  match ev with
  | LockAcquire | LockRelease => true
  | _ => false
  end.

Definition is_read_event (ev : event) : bool :=
  match ev with
  | ClientReadInputRegisters _ _ => true
  | _ => false
  end.

End Modbus.

(** ** boneio.helper.UniqueQueue *)

Module UniqueQueue.

(** An item of the publish queue: the tuple [(topic, payload)]. *)
Definition item : Type := string * string.

Definition item_eqb (a b : item) : bool :=
  String.eqb (fst a) (fst b) && String.eqb (snd a) (snd b).

Definition mem (x : item) (l : list item) : bool := existsb (item_eqb x) l.

Record t : Type := {
  pending : list item;   (* queued and not yet dequeued, oldest first *)
  acked : nat            (* consumptions acknowledged with [task_done] *)
}.

Definition empty : t := {| pending := []; acked := 0%nat |}.

(** Modelled from the spec: [UniqueQueue] (boneio.helper) is absent from
    the sources. Enqueuing is non-blocking; re-submission of an identical
    pending item is a no-op rather than a duplicate enqueue; distinct
    items keep FIFO order. *)
Definition put_nowait (x : item) (q : t) : t :=
  if mem x (pending q) then q
  else {| pending := pending q ++ [x]; acked := acked q |}.

(** Modelled from the spec: the oldest pending item, when there is one
    (the caller suspends otherwise). *)
Definition get_nowait (q : t) : option (item * t) :=
  match pending q with
  | [] => None
  | x :: rest => Some (x, {| pending := rest; acked := acked q |})
  end.

(** Modelled from the spec: [ack()] signals consumption completion. *)
Definition task_done (q : t) : t :=
  {| pending := pending q; acked := S (acked q) |}.

End UniqueQueue.

(** ** boneio/mqtt_client.py *)

Module MqttClient.

Record MQTTClient : Type := {
  host : string;
  port : Z;
  asyncio_client : nat;          (* which [AsyncioClient] object it holds *)
  reconnect_interval : Z;
  publish_queue : UniqueQueue.t
}.

Definition set_asyncio_client (c : nat) (self : MQTTClient) : MQTTClient :=
  {| host := host self; port := port self; asyncio_client := c;
     reconnect_interval := reconnect_interval self;
     publish_queue := publish_queue self |}.

Definition set_reconnect_interval (i : Z) (self : MQTTClient) : MQTTClient :=
  {| host := host self; port := port self;
     asyncio_client := asyncio_client self;
     reconnect_interval := i;
     publish_queue := publish_queue self |}.

Definition set_publish_queue (q : UniqueQueue.t) (self : MQTTClient)
  : MQTTClient :=
  {| host := host self; port := port self;
     asyncio_client := asyncio_client self;
     reconnect_interval := reconnect_interval self;
     publish_queue := q |}.

(** What another task of the event loop does to the client while the
    method at hand is suspended: a producer's [send_message] puts an item,
    a publish task takes the oldest one. *)
Inductive other : Type :=
| Put (x : UniqueQueue.item)
| Take.

Definition other_step (q : UniqueQueue.t) (o : other) : UniqueQueue.t :=
  match o with
  | Put x => UniqueQueue.put_nowait x q
  | Take =>
      match UniqueQueue.get_nowait q with
      | Some (_, q') => q'
      | None => q
      end
  end.

Definition run_others (os : list other) (q : UniqueQueue.t) : UniqueQueue.t :=
  fold_left other_step os q.

(** How one [await] completes: what the other tasks did meanwhile, and
    whether the awaited operation succeeded or raised. *)
Record wakeup : Type := {
  meanwhile : list other;
  resumed : call unit
}.

(** The client object together with the event loop around it. *)
Record runtime : Type := {
  this : MQTTClient;
  created : nat;            (* [AsyncioClient] objects made so far *)
  wakeups : list wakeup     (* how the coming awaits complete *)
}.

Definition on_this (f : MQTTClient -> MQTTClient) (rt : runtime) : runtime :=
  {| this := f (this rt); created := created rt; wakeups := wakeups rt |}.

Inductive task : Type := publish_task | messages_task.

Definition task_eqb (a b : task) : bool :=
  match a, b with
  | publish_task, publish_task | messages_task, messages_task => true
  | _, _ => false
  end.

Inductive event : Type :=
| CreateClient (client : nat)
| Connect (client : nat)
| SetReconnectInterval (secs : Z)
| CreateTask (t : task)
| UnfilteredMessages (client : nat)
| Subscribe (client : nat) (topic : string) (qos : Z) (timeout : Z)
| Publish (client : nat) (topic : string) (payload : option string)
          (qos : Z) (retain : bool) (timeout : Z)
| QueueGet
| Gather (tasks : list task)
| ExitStack
| LogError (err : exception) (secs : Z)
| Sleep (secs : Z).

Definition Co : Type -> Type := M runtime event.

(** The runtime a suspended method resumes in: the other tasks have run,
    the wakeup is used up. *)
Definition wake (w : wakeup) (rest : list wakeup) (rt : runtime) : runtime :=
  {| this := set_publish_queue
               (run_others (meanwhile w) (publish_queue (this rt)))
               (this rt);
     created := created rt;
     wakeups := rest |}.

(** An [await] of an operation of the event loop or of the broker
    client: the operation is issued, the other tasks run, and the method
    resumes with the operation's result; with no wakeup left the method
    stays suspended. *)
Definition await (op : event) : Co unit :=
  emit op ;;
  (fun rt =>
     match wakeups rt with
     | [] => (Suspended, rt, [])
     | w :: rest =>
         match resumed w with
         | Ok _ => (Returns tt, wake w rest rt, [])
         | Throw e => (Raises e, wake w rest rt, [])
         end
     end).

(** [while True: body]. Every iteration that completes has passed an
    [await], so one more iteration than there are wakeups is never used
    up. *)
Fixpoint iterate (n : nat) (body : Co unit) : Co unit :=
  match n with
  | O => suspend
  | S k => body ;; iterate k body
  end.

Definition while_true (body : Co unit) : Co unit :=
  fun rt => iterate (S (List.length (wakeups rt))) body rt.

(** A new [AsyncioClient] object, stored in [self.asyncio_client]. *)
Definition new_client (rt : runtime) : runtime :=
  {| this := set_asyncio_client (created rt) (this rt);
     created := S (created rt);
     wakeups := wakeups rt |}.

Definition create_client : Co unit :=
  rt <- get_self ;;
  modify new_client ;;
  emit (CreateClient (created rt)).

(** [MQTTClient.__init__], on an event loop that has made [made] client
    objects and whose awaits will complete as [ws] says. *)
Definition __init__ (host_ : string) (port_ : Z) (made : nat)
           (ws : list wakeup) : outcome unit * runtime * list event :=
  (create_client ;;
   modify (on_this (set_reconnect_interval 1)) ;;
   modify (on_this (set_publish_queue UniqueQueue.empty)))
    {| this := {| host := host_; port := port_; asyncio_client := 0%nat;
                  reconnect_interval := 0;
                  publish_queue := UniqueQueue.empty |};
       created := made; wakeups := ws |}.

Definition str_truthy (s : string) : bool := negb (String.eqb s "").

(** [publish(topic, payload)] with the defaults [qos=0], [retain=False],
    [timeout=10]: the payload is passed on only when it is non-empty. *)
Definition publish (topic payload : string) : Co unit :=
  rt <- get_self ;;
  await (Publish (asyncio_client (this rt)) topic
           (if str_truthy payload then Some payload else None) 0 false 10).

(** [subscribe(topic)] with the defaults [qos=0], [timeout=10.0]. *)
Definition subscribe (topic : string) : Co unit :=
  rt <- get_self ;;
  await (Subscribe (asyncio_client (this rt)) topic 0 10).

(** The payload argument of [send_message]: a string or a dict. *)
Inductive payload (dict : Type) : Type :=
| PStr (s : string)
| PDict (d : dict).
Arguments PStr {dict} s.
Arguments PDict {dict} d.

Definition send_message {dict : Type} (json_dumps : dict -> string)
           (topic : string) (p : payload dict) (self : MQTTClient)
  : MQTTClient :=
  let to_publish :=
    (topic, match p with PDict d => json_dumps d | PStr s => s end) in
  set_publish_queue (UniqueQueue.put_nowait to_publish (publish_queue self))
                    self.

(** Modelled from the spec: [await self.publish_queue.get()] suspends the
    calling task until an item is available. *)
Fixpoint queue_get (n : nat) : Co UniqueQueue.item :=
  rt <- get_self ;;
  match UniqueQueue.get_nowait (publish_queue (this rt)) with
  | Some (x, q) => modify (on_this (set_publish_queue q)) ;; ret x
  | None =>
      match n with
      | O => suspend
      | S k => await QueueGet ;; queue_get k
      end
  end.

(** The loop body of [_handle_publish]. *)
Definition handle_publish_turn : Co unit :=
  rt <- get_self ;;
  to_publish <- queue_get (List.length (wakeups rt)) ;;
  publish (fst to_publish) (snd to_publish) ;;
  modify (on_this (fun self =>
            set_publish_queue (UniqueQueue.task_done (publish_queue self))
                              self)).

Definition _handle_publish : Co unit := while_true handle_publish_turn.

Record Manager : Type := { relay_topic : string }.

Definition is_MqttError : exception -> bool := exception_eqb MqttError.

(** [async with AsyncExitStack() as stack: body] *)
Definition with_exit_stack {A} (body : Co A) : Co A :=
  finally body (emit ExitStack).

Definition _subscribe_manager (manager : Manager) : Co unit :=
  with_exit_stack
    (rt <- get_self ;;
     await (Connect (asyncio_client (this rt))) ;;
     modify (on_this (set_reconnect_interval 1)) ;;
     emit (SetReconnectInterval 1) ;;
     emit (CreateTask publish_task) ;;
     rt <- get_self ;;
     await (UnfilteredMessages (asyncio_client (this rt))) ;;
     emit (CreateTask messages_task) ;;
     subscribe (relay_topic manager) ;;
     await (Gather [publish_task; messages_task])).

(** The [except MqttError as err] block of [start_client]. *)
Definition reconnect (err : exception) : Co unit :=
  rt <- get_self ;;
  let doubled := Z.min (reconnect_interval (this rt) * 2) 900 in
  modify (on_this (set_reconnect_interval doubled)) ;;
  emit (SetReconnectInterval doubled) ;;
  rt <- get_self ;;
  emit (LogError err (reconnect_interval (this rt))) ;;
  await (Sleep (reconnect_interval (this rt))) ;;
  create_client.

(** One turn of the loop of [start_client]. *)
Definition start_client_turn (manager : Manager) : Co unit :=
  try_except (_subscribe_manager manager) is_MqttError reconnect.

Definition start_client (manager : Manager) : Co unit :=
  while_true (start_client_turn manager).

(** The [secs] of the [Sleep]s of a trace, in order. *)
Definition sleeps (t : list event) : list Z :=
  flat_map (fun ev => match ev with Sleep secs => [secs] | _ => [] end) t.

(** The values stored into [reconnect_interval] along a trace. *)
Definition stored_intervals (t : list event) : list Z :=
  flat_map (fun ev =>
              match ev with SetReconnectInterval secs => [secs] | _ => [] end)
           t.

(** The topics and payloads handed to the broker client along a trace. *)
Definition published (t : list event) : list (string * option string) :=
  flat_map (fun ev =>
              match ev with
              | Publish _ topic payload _ _ _ => [(topic, payload)]
              | _ => []
              end) t.

Definition is_subscribe (ev : event) : bool :=
  match ev with Subscribe _ _ _ _ => true | _ => false end.

Definition is_create_task (t : task) (ev : event) : bool :=
  match ev with CreateTask t' => task_eqb t t' | _ => false end.

Definition is_gather (ev : event) : bool :=
  match ev with Gather _ => true | _ => false end.

(** Position of the first event of a trace that satisfies [p]. *)
Fixpoint index_of (p : event -> bool) (t : list event) : option nat :=
  match t with
  | [] => None
  | ev :: rest =>
      if p ev then Some 0%nat
      else match index_of p rest with
           | Some i => Some (S i)
           | None => None
           end
  end.

(** A connection attempt that fails with [MqttError], followed by the
    sleep of the retry path; each comes with what the other tasks did
    meanwhile. *)
Definition failed_attempt (during_connect during_sleep : list other)
  : list wakeup :=
  [ {| meanwhile := during_connect; resumed := Throw MqttError |};
    {| meanwhile := during_sleep; resumed := Ok tt |} ].

(** An outage: consecutive failed attempts. *)
Definition outage (activity : list (list other * list other)) : list wakeup :=
  flat_map (fun a => failed_attempt (fst a) (snd a)) activity.

Definition is_put (o : other) : bool :=
  match o with Put _ => true | Take => false end.

(** The sleep durations announced for [n] consecutive failures from
    interval 1: 1, 1, 2, 4, 8, ..., capped at 900. *)
Definition announced_sleeps (n : nat) : list Z :=
  map (fun k => match k with
                | O => 1
                | S j => Z.min (2 ^ Z.of_nat j) 900
                end) (seq 0 n).

(** The sleep durations 2, 4, 8, ..., capped at 900. *)
Definition doubled_sleeps (start : Z) (n : nat) : list Z :=
  map (fun k => Z.min (start * 2 ^ Z.of_nat k) 900) (seq 1 n).

(** [k] awaits that complete while no other task touches the client. *)
Definition undisturbed (k : nat) : list wakeup :=
  repeat {| meanwhile := []; resumed := Ok tt |} k.

(** What [publish] hands to the broker client for a queued item. *)
Definition as_published (x : UniqueQueue.item) : string * option string :=
  (fst x, if str_truthy (snd x) then Some (snd x) else None).

Definition is_set_interval (ev : event) : bool :=
  match ev with SetReconnectInterval _ => true | _ => false end.

(** [rt] comes from [rt0] by steps that leave [host] and [port] alone and
    change the publish queue only through what the other tasks did during
    the awaits that were used up. *)
Definition queue_left_to_others (rt0 rt : runtime) : Prop :=
  host (this rt) = host (this rt0) /\
  port (this rt) = port (this rt0) /\
  exists used,
    wakeups rt0 = used ++ wakeups rt /\
    publish_queue (this rt)
    = run_others (flat_map meanwhile used) (publish_queue (this rt0)).

(** Everything the other tasks do during an outage. *)
Definition outage_activity (activity : list (list other * list other))
  : list other :=
  flat_map (fun a => fst a ++ snd a) activity.

Definition interval_in_range (i : Z) : Prop := 1 <= i <= 900.

Definition good_event (ev : event) : Prop :=
  match ev with
  | SetReconnectInterval secs => interval_in_range secs
  | Sleep secs => interval_in_range secs
  | _ => True
  end.

End MqttClient.

(** ** Observations on traces *)

Module Observe.

(** A call of [connect] on the serial client. *)
Definition is_connect_event (ev : Modbus.event) : bool :=
  match ev with Modbus.ClientConnect => true | _ => false end.

(** The error messages logged along a trace of the hub. *)
Definition logged_errors (t : list Modbus.event) : list string :=
  flat_map (fun ev => match ev with Modbus.LogError msg => [msg] | _ => [] end) t.

(** The client objects on which a connection was attempted, in order. *)
Definition connects (t : list MqttClient.event) : list nat :=
  flat_map (fun ev => match ev with MqttClient.Connect c => [c] | _ => [] end) t.

(** The client objects created along a trace, in order. *)
Definition clients_created (t : list MqttClient.event) : list nat :=
  flat_map (fun ev => match ev with MqttClient.CreateClient c => [c] | _ => [] end)
           t.

End Observe.

(** ** boneio/mqtt_client.py: the options of [MQTTClient.__init__] *)

Module ClientOptions.

(** The values that occur among the keyword options of the client. *)
Inductive value : Type :=
| Str (s : string)
| Int (n : Z)
| Bool (b : bool)
| Logger (name : string).

(** A Python [dict] with string keys, in insertion order. *)
Definition dict : Type := list (string * value).

(** [d.get(key)] *)
Fixpoint get (key : string) (d : dict) : option value :=
  match d with
  | [] => None
  | (k, v) :: rest => if String.eqb key k then Some v else get key rest
  end.

(** [key in d] *)
Definition contains (key : string) (d : dict) : bool :=
  match get key d with Some _ => true | None => false end.

(** [d[key] = v]: an existing key keeps its place, a new one goes last. *)
Fixpoint set (key : string) (v : value) (d : dict) : dict :=
  match d with
  | [] => [(key, v)]
  | (k, w) :: rest =>
      if String.eqb key k then (k, v) :: rest else (k, w) :: set key v rest
  end.

(** The options as [__init__] stores them in [self.client_options];
    [generated_id] is the value of
    [mqtt.base62(uuid.uuid4().int, padding=22)] and [PAHO] the logger name
    of [boneio.const]. *)
Definition client_options_of (generated_id PAHO : string) (client_options : dict)
  : dict :=
  let client_options :=
    if negb (contains "client_id" client_options)
    then set "client_id" (Str generated_id) client_options
    else client_options in
  let client_options :=
    if negb (contains "logger" client_options)
    then set "logger" (Logger PAHO) client_options
    else client_options in
  set "clean_session" (Bool true) client_options.

End ClientOptions.

(** ** boneio/mqtt_client.py: [handle_messages] *)

Module HandleMessages.

Record message : Type := {
  topic : string;
  payload : list Byte.byte
}.

Inductive event : Type :=
| Debug (topic payload : string)
| Callback (topic payload : string).

(** [handle_messages(messages, callback)]. The stream [messages] yields a
    message or raises at each step and ends with the list; [decode] is
    [bytes.decode]; the callback may raise. *)
Fixpoint handle_messages (decode : list Byte.byte -> call string)
         (messages : list (call message))
         (callback : string -> string -> call unit) : M unit event unit :=
  match messages with
  | [] => ret tt
  | next :: rest =>
      message <- of_call next ;;
      payload <- of_call (decode (payload message)) ;;
      emit (Debug (topic message) payload) ;;
      emit (Callback (topic message) payload) ;;
      of_call (callback (topic message) payload) ;;
      handle_messages decode rest callback
  end.

(** The calls of the callback along a trace, in order. *)
Definition callbacks (t : list event) : list (string * string) :=
  flat_map (fun ev => match ev with Callback tp p => [(tp, p)] | _ => [] end) t.

(** What the callback receives for a message that decodes. *)
Definition delivered (decode : list Byte.byte -> call string) (m : message)
  : string * string :=
  (topic m, match decode (payload m) with Ok s => s | Throw _ => "" end).

(** A message that arrives, decodes and is accepted by the callback. *)
Definition handled (decode : list Byte.byte -> call string)
           (callback : string -> string -> call unit) (m : message) : Prop :=
  exists s, decode (payload m) = Ok s /\ callback (topic m) s = Ok tt.

End HandleMessages.

(** ** Sample objects *)

Module Sample.

(** A response with the registers 0x4048, 0xF5C3 (the pattern of 3.14). *)
Definition reading : Modbus.ModbusResponse :=
  {| Modbus.registers := Some [16456; 62915]; Modbus.str := "ReadRegisterResponse (2)" |}.

(** An error response: it has no [registers] attribute. *)
Definition error_reply : Modbus.ModbusResponse :=
  {| Modbus.registers := None; Modbus.str := "Exception Response(132, 4, GatewayNoResponse)" |}.

Definition serial_client : Modbus.BaseModbusClient :=
  {| Modbus.connect := Ok true;
     Modbus.close := Ok tt;
     Modbus.read_input_registers := fun _ _ => Ok reading |}.

(** A client whose device does not answer. *)
Definition silent_client : Modbus.BaseModbusClient :=
  {| Modbus.connect := Throw ModbusException;
     Modbus.close := Throw ModbusException;
     Modbus.read_input_registers := fun _ _ => Ok error_reply |}.

Definition uart : Modbus.Uart :=
  {| Modbus.ID := "/dev/ttyS4"; Modbus.RX := "P9_11"; Modbus.TX := "P9_13" |}.

Definition hub : Modbus.Modbus :=
  self_of (Modbus.__init__ uart (Ok serial_client)).

Definition silent_hub : Modbus.Modbus :=
  self_of (Modbus.__init__ uart (Ok silent_client)).

Definition closed_hub : Modbus.Modbus := self_of (Modbus.async_close hub).

Definition manager : MqttClient.Manager :=
  {| MqttClient.relay_topic := "boneio/relay/+/set" |}.

Definition completes : MqttClient.wakeup :=
  {| MqttClient.meanwhile := []; MqttClient.resumed := Ok tt |}.

Definition fails : MqttClient.wakeup :=
  {| MqttClient.meanwhile := []; MqttClient.resumed := Throw MqttError |}.

(** A fresh client on an event loop whose awaits complete as [ws] says. *)
Definition client (ws : list MqttClient.wakeup) : MqttClient.runtime :=
  self_of (MqttClient.__init__ "broker" 1883 0 ws).

End Sample.

(** ** More sample objects *)

Module Cases.

(** A response that carries a single register. *)
Definition short_reading : Modbus.ModbusResponse :=
  {| Modbus.registers := Some [16456]; Modbus.str := "ReadRegisterResponse (1)" |}.

Definition short_client : Modbus.BaseModbusClient :=
  {| Modbus.connect := Ok true;
     Modbus.close := Ok tt;
     Modbus.read_input_registers := fun _ _ => Ok short_reading |}.

Definition short_hub : Modbus.Modbus :=
  self_of (Modbus.__init__ Sample.uart (Ok short_client)).

(** A client whose [connect] reports failure by returning [False], and
    whose other methods fail with an exception that is no
    [ModbusException]. *)
Definition faulty_client : Modbus.BaseModbusClient :=
  {| Modbus.connect := Ok false;
     Modbus.close := Throw AttributeError;
     Modbus.read_input_registers := fun _ _ => Throw AttributeError |}.

Definition faulty_hub : Modbus.Modbus :=
  self_of (Modbus.__init__ Sample.uart (Ok faulty_client)).

(** A hub whose serial client could not be constructed. *)
Definition clientless_hub : Modbus.Modbus :=
  self_of (Modbus.__init__ Sample.uart (Throw ModbusException)).

(** A decoder for payloads of ASCII text, and a callback that accepts
    every message. *)
Definition ascii_decode (bytes : list Byte.byte) : call string :=
  Ok (string_of_list_byte bytes).

Definition accept (topic payload : string) : call unit := Ok tt.

Definition relay_on : HandleMessages.message :=
  {| HandleMessages.topic := "boneio/relay/1/set";
     HandleMessages.payload := list_byte_of_string "ON" |}.

Definition relay_off : HandleMessages.message :=
  {| HandleMessages.topic := "boneio/relay/1/set";
     HandleMessages.payload := list_byte_of_string "OFF" |}.

End Cases.

(** * Properties *)

(** ** The register decoder *)

Module PymodbusFacts.
Import Pymodbus.

Lemma is_register_test x :
  is_register x -> (0 <=? x) && (x <? 65536) = true.
Proof.
  unfold is_register. intros [H0 H1].
  apply andb_true_intro. split; [apply Z.leb_le | apply Z.ltb_lt]; assumption.
Qed.

Lemma testbit_255 n : 0 <= n -> Z.testbit 255 n = (n <? 8).
Proof.
  intros Hn. change 255 with (Z.ones 8).
  destruct (Z.ltb_spec n 8).
  - apply Z.ones_spec_low. lia.
  - apply Z.ones_spec_high. lia.
Qed.

Lemma high_low_bytes x :
  Z.lor (Z.shiftl (Z.shiftr x 8) 8) (Z.land x 255) = x.
Proof.
  apply Z.bits_inj'. intros n Hn.
  rewrite Z.lor_spec, Z.land_spec, testbit_255 by assumption.
  destruct (Z.ltb_spec n 8).
  - rewrite Z.shiftl_spec_low by lia. simpl. apply andb_true_r.
  - rewrite Z.shiftl_spec, Z.shiftr_spec by lia.
    replace (n - 8 + 8) with n by lia.
    rewrite andb_false_r. apply orb_false_r.
Qed.

Lemma unpack_pack_big x :
  unpack_H_network (Z.shiftr x 8) (Z.land x 255) = x.
Proof. apply high_low_bytes. Qed.

Lemma four_bytes_bits x y :
  Z.lor (Z.shiftl (Z.shiftr x 8) 24)
    (Z.lor (Z.shiftl (Z.land x 255) 16)
       (Z.lor (Z.shiftl (Z.shiftr y 8) 8) (Z.land y 255)))
  = register_pair_bits x y.
Proof.
  unfold register_pair_bits.
  rewrite (high_low_bytes y).
  rewrite Z.lor_assoc. f_equal.
  replace (Z.shiftl (Z.shiftr x 8) 24)
    with (Z.shiftl (Z.shiftl (Z.shiftr x 8) 8) 16)
    by (rewrite Z.shiftl_shiftl by lia; reflexivity).
  rewrite <- Z.shiftl_lor. rewrite high_low_bytes. reflexivity.
Qed.

Lemma pack_H_big x :
  is_register x -> pack_H Big x = Ok [Z.shiftr x 8; Z.land x 255].
Proof.
  intros H. unfold pack_H. rewrite (is_register_test x H). reflexivity.
Qed.

Lemma pack_words_big_total xs :
  Forall is_register xs -> exists bytes, pack_words Big xs = Ok bytes.
Proof.
  induction 1 as [|x xs Hx _ [bytes IH]].
  - exists []. reflexivity.
  - simpl. rewrite (pack_H_big x Hx), IH. eauto.
Qed.

Lemma decode_pair first second rest :
  Forall is_register (first :: second :: rest) ->
  exists d,
    fromRegisters (first :: second :: rest) Big Big = Ok d /\
    decode_32bit_float d
    = Ok (binary32_of_bits (register_pair_bits first second)).
Proof.
  intros H. inversion H as [|? ? H1 H']; subst.
  inversion H' as [|? ? H2 H'']; subst.
  destruct (pack_words_big_total rest H'') as [more Hmore].
  unfold fromRegisters. cbn [pack_words].
  rewrite (pack_H_big first H1), (pack_H_big second H2), Hmore.
  eexists. split; [reflexivity|].
  unfold decode_32bit_float, _unpack_words. cbn [_payload _pointer _wordorder _byteorder].
  cbn [Nat.add Nat.sub app skipn firstn].
  rewrite !unpack_pack_big. cbn [pack_words].
  rewrite (pack_H_big first H1), (pack_H_big second H2).
  cbn [app unpack_f_network]. rewrite four_bytes_bits. reflexivity.
Qed.

End PymodbusFacts.

(** ** The Modbus hub *)

Module ModbusFacts.
Import Modbus.

Ltac run_method :=
  unfold read_single_register, read_multiple_registers, async_close,
    with_lock, the_client, bound_method_truthy, finally, try_except, bind,
    get_self, modify, emit, ret, raise, of_call, result_of, self_of,
    trace_of;
  cbn.

Lemma set_lock_same self : set_lock (_lock self) self = self.
Proof. destruct self; reflexivity. Qed.

Lemma kwargs_of_falsy unit count :
  optional_int_truthy unit = false -> kwargs_of unit count = [].
Proof. intros H. unfold kwargs_of. rewrite H. reflexivity. Qed.

(** Neither read method looks at the lock or changes the object. *)
Lemma read_single_register_frame unit address count self :
  self_of (read_single_register unit address count self) = self /\
  filter is_lock_event
    (trace_of (read_single_register unit address count self)) = [].
Proof.
  run_method. destruct (_client self) as [c|]; cbn; [|auto].
  destruct (read_input_registers c address (kwargs_of unit count))
    as [resp|e]; cbn.
  - destruct (registers resp) as [regs|]; cbn; [|auto].
    destruct (Pymodbus.fromRegisters regs Pymodbus.Big Pymodbus.Big)
      as [d|e]; cbn; [|auto].
    destruct (Pymodbus.decode_32bit_float d); cbn; auto.
  - destruct e; cbn; auto.
Qed.

Lemma read_multiple_registers_frame unit address count self :
  self_of (read_multiple_registers unit address count self) = self /\
  filter is_lock_event
    (trace_of (read_multiple_registers unit address count self)) = [].
Proof.
  run_method. destruct (_client self) as [c|]; cbn; [|auto].
  destruct (read_input_registers c address (kwargs_of unit count))
    as [resp|e]; cbn.
  - destruct (registers resp) as [regs|]; cbn; auto.
  - destruct e; cbn; auto.
Qed.

Lemma read_single_register_any_lock unit address count self held :
  result_of (read_single_register unit address count (set_lock held self))
  = result_of (read_single_register unit address count self) /\
  trace_of (read_single_register unit address count (set_lock held self))
  = trace_of (read_single_register unit address count self).
Proof.
  run_method. destruct (_client self) as [c|]; cbn; [|auto].
  destruct (read_input_registers c address (kwargs_of unit count))
    as [resp|e]; cbn.
  - destruct (registers resp) as [regs|]; cbn; [|auto].
    destruct (Pymodbus.fromRegisters regs Pymodbus.Big Pymodbus.Big)
      as [d|e]; cbn; [|auto].
    destruct (Pymodbus.decode_32bit_float d); cbn; auto.
  - destruct e; cbn; auto.
Qed.

Lemma read_multiple_registers_any_lock unit address count self held :
  result_of (read_multiple_registers unit address count (set_lock held self))
  = result_of (read_multiple_registers unit address count self) /\
  trace_of (read_multiple_registers unit address count (set_lock held self))
  = trace_of (read_multiple_registers unit address count self).
Proof.
  run_method. destruct (_client self) as [c|]; cbn; [|auto].
  destruct (read_input_registers c address (kwargs_of unit count))
    as [resp|e]; cbn.
  - destruct (registers resp) as [regs|]; cbn; auto.
  - destruct e; cbn; auto.
Qed.

(** C3, as stated, fails: after [async_close] the handle is [None] and
    [read_single_register] lets the [AttributeError] of the attribute
    access escape to its caller. *)
Lemma read_single_register_raises_after_close :
  _client Sample.closed_hub = None /\
  result_of (read_single_register (Some 1) 0 2 Sample.closed_hub)
  = Raises AttributeError.
Proof. split; reflexivity. Qed.

(** C3, amended: while the client handle is present, a failure of the
    transaction (a [ModbusException] raised by the call, which is how a
    connection failure shows, or a response without the [registers]
    attribute) makes [read_single_register] return [None]; nothing is
    raised and the object is unchanged, whatever [connect] would do. With
    the handle cleared the call raises [AttributeError]. *)
Theorem read_single_register_failure_gives_None
        (self : Modbus) (unit : option Z) (address count : Z) :
  (forall c,
      _client self = Some c ->
      (read_input_registers c address (kwargs_of unit count)
       = Throw ModbusException \/
       exists resp,
         read_input_registers c address (kwargs_of unit count) = Ok resp /\
         registers resp = None) ->
      result_of (read_single_register unit address count self) = Returns None /\
      self_of (read_single_register unit address count self) = self) /\
  (_client self = None ->
   result_of (read_single_register unit address count self)
   = Raises AttributeError).
Proof.
  split.
  - intros c Hc Hfail. split; [|apply read_single_register_frame].
    run_method. rewrite Hc. cbn.
    destruct Hfail as [Hraise | [resp [Hresp Hnone]]].
    + rewrite Hraise. reflexivity.
    + rewrite Hresp. cbn. rewrite Hnone. reflexivity.
  - intros Hc. run_method. rewrite Hc. reflexivity.
Qed.

Lemma read_single_register_failure_gives_None_witness :
  result_of (read_single_register (Some 1) 0 2 Sample.silent_hub)
  = Returns None /\
  self_of (read_single_register (Some 1) 0 2 Sample.silent_hub)
  = Sample.silent_hub.
Proof.
  apply (proj1 (read_single_register_failure_gives_None
                  Sample.silent_hub (Some 1) 0 2) Sample.silent_client).
  - reflexivity.
  - right. exists Sample.error_reply. split; reflexivity.
Defined.

(** C4, as stated, fails: with the lock free, [read_single_register]
    performs its bus transaction without acquiring it. *)
Lemma read_single_register_io_without_lock :
  _lock Sample.hub = false /\
  trace_of (read_single_register (Some 1) 0 2 Sample.hub)
  = [ClientReadInputRegisters 0 [("unit", Some 1); ("count", Some 2)]] /\
  io_under_lock (_lock Sample.hub)
    (trace_of (read_single_register (Some 1) 0 2 Sample.hub)) = false.
Proof. repeat split. Qed.

(** C4, amended: [read_single_register] and [read_multiple_registers]
    never touch the lock. They neither acquire nor release it, they leave
    the object as it was, and their result and their bus operations are
    the same whether or not the lock is held. *)
Theorem read_methods_ignore_lock
        (self : Modbus) (unit : option Z) (address count : Z) (held : bool) :
  (self_of (read_single_register unit address count self) = self /\
   filter is_lock_event
     (trace_of (read_single_register unit address count self)) = [] /\
   result_of (read_single_register unit address count (set_lock held self))
   = result_of (read_single_register unit address count self) /\
   trace_of (read_single_register unit address count (set_lock held self))
   = trace_of (read_single_register unit address count self)) /\
  (self_of (read_multiple_registers unit address count self) = self /\
   filter is_lock_event
     (trace_of (read_multiple_registers unit address count self)) = [] /\
   result_of (read_multiple_registers unit address count (set_lock held self))
   = result_of (read_multiple_registers unit address count self) /\
   trace_of (read_multiple_registers unit address count (set_lock held self))
   = trace_of (read_multiple_registers unit address count self)).
Proof.
  pose proof (read_single_register_frame unit address count self) as [? ?].
  pose proof (read_multiple_registers_frame unit address count self) as [? ?].
  pose proof (read_single_register_any_lock unit address count self held)
    as [? ?].
  pose proof (read_multiple_registers_any_lock unit address count self held)
    as [? ?].
  repeat split; assumption.
Qed.

(** C8: when the read succeeds with at least two 16-bit registers,
    [read_single_register] returns the IEEE-754 32-bit value whose bit
    pattern is the first register (high word) followed by the second
    (low word), each register being read high byte first. *)
Theorem read_single_register_decodes_float
        (self : Modbus) (c : BaseModbusClient) (unit : option Z)
        (address count : Z) (resp : ModbusResponse)
        (first second : Z) (rest : list Z) :
  _client self = Some c ->
  read_input_registers c address (kwargs_of unit count) = Ok resp ->
  registers resp = Some (first :: second :: rest) ->
  Forall Pymodbus.is_register (first :: second :: rest) ->
  result_of (read_single_register unit address count self)
  = Returns
      (Some (Pymodbus.binary32_of_bits
               (Pymodbus.register_pair_bits first second))).
Proof.
  intros Hc Hread Hregs Hrange.
  destruct (PymodbusFacts.decode_pair first second rest Hrange)
    as [d [Hfrom Hdecode]].
  run_method. rewrite Hc. cbn. rewrite Hread. cbn. rewrite Hregs. cbn.
  rewrite Hfrom. cbn. rewrite Hdecode. reflexivity.
Qed.

Lemma read_single_register_decodes_float_witness :
  result_of (read_single_register (Some 1) 0 2 Sample.hub)
  = Returns (Some (S754_finite false 13170115 (-22))).
Proof.
  apply (read_single_register_decodes_float
           Sample.hub Sample.serial_client (Some 1) 0 2 Sample.reading
           16456 62915 []).
  - reflexivity.
  - reflexivity.
  - reflexivity.
  - repeat constructor; unfold Pymodbus.is_register; lia.
Defined.

Lemma async_close_when_closed self :
  _client self = None -> _lock self = false ->
  async_close self = (Returns tt, self, [LockAcquire; LockRelease]).
Proof.
  intros Hc Hl. run_method. rewrite Hl. cbn. rewrite Hc. cbn.
  destruct self as [u cl l]. cbn in *. subst. reflexivity.
Qed.

(** C9, as stated, fails: the read methods take no lock at all, so there
    is no lock that [async_close] shares with bus transactions; and when
    [close] raises an exception other than [ModbusException], [async_close]
    raises it and the client handle is not discarded. *)
Lemma async_close_keeps_handle_when_close_fails :
  filter is_lock_event (trace_of (async_close Sample.hub))
  = [LockAcquire; LockRelease] /\
  filter is_lock_event (trace_of (read_single_register (Some 1) 0 2 Sample.hub))
  = [] /\
  _lock Cases.faulty_hub = false /\
  result_of (async_close Cases.faulty_hub) = Raises AttributeError /\
  _client (self_of (async_close Cases.faulty_hub)) = Some Cases.faulty_client.
Proof. repeat split. Qed.

(** C9, amended: [async_close] takes the hub's lock [self._lock] (it waits
    while another task holds it) and releases it on every way out; the
    read methods never take this lock. Inside the locked region it closes
    the client and, when [close] returns or raises [ModbusException],
    discards the handle; any other exception of [close] escapes and leaves
    the handle in place. Once the handle is cleared, a further call only
    takes and releases the lock: it returns, raises nothing and leaves the
    object as it was. *)
Theorem async_close_clears_handle_under_lock
        (self : Modbus) (unit : option Z) (address count : Z) :
  _lock self = false ->
  let first := async_close self in
  (exists inside,
      trace_of first = LockAcquire :: inside ++ [LockRelease] /\
      filter is_lock_event inside = []) /\
  _lock (self_of first) = false /\
  result_of (async_close (set_lock true self)) = Suspended /\
  filter is_lock_event
    (trace_of (read_single_register unit address count self)) = [] /\
  filter is_lock_event
    (trace_of (read_multiple_registers unit address count self)) = [] /\
  match _client self with
  | None => first = (Returns tt, self, [LockAcquire; LockRelease])
  | Some c =>
      match close c with
      | Ok _ => result_of first = Returns tt /\ _client (self_of first) = None
      | Throw e =>
          if is_ModbusException e
          then result_of first = Returns tt /\ _client (self_of first) = None
          else result_of first = Raises e /\ _client (self_of first) = Some c
      end
  end /\
  (result_of first = Returns tt ->
   _client (self_of first) = None /\
   async_close (self_of first)
   = (Returns tt, self_of first, [LockAcquire; LockRelease])).
Proof.
  intros Hl first.
  assert (Hshape :
            (exists inside,
                trace_of first = LockAcquire :: inside ++ [LockRelease] /\
                filter is_lock_event inside = []) /\
            _lock (self_of first) = false /\
            match _client self with
            | None => first = (Returns tt, self, [LockAcquire; LockRelease])
            | Some c =>
                match close c with
                | Ok _ =>
                    result_of first = Returns tt /\
                    _client (self_of first) = None
                | Throw e =>
                    if is_ModbusException e
                    then result_of first = Returns tt /\
                         _client (self_of first) = None
                    else result_of first = Raises e /\
                         _client (self_of first) = Some c
                end
            end).
  { subst first. destruct (_client self) as [c|] eqn:Hc.
    - run_method. rewrite Hl. cbn. rewrite Hc. cbn.
      destruct (close c) as [[]|e]; cbn.
      + split; [|repeat split].
        exists [ClientClose; LogWarning "modbus communication closed"].
        split; reflexivity.
      + destruct e; cbn;
          (split; [|split; [reflexivity|split; [reflexivity|try reflexivity]]]);
          try exact Hc;
          first [ exists [ClientClose]; split; reflexivity
                | exists [ClientClose; LogError "ModbusException";
                          LogWarning "modbus communication closed"];
                  split; reflexivity ].
    - rewrite (async_close_when_closed self Hc Hl). cbn.
      split; [exists []; split; reflexivity|]. split; [exact Hl | reflexivity]. }
  destruct Hshape as (H1 & H2 & H3).
  split; [exact H1|]. split; [exact H2|].
  split; [run_method; reflexivity|].
  split; [apply read_single_register_frame|].
  split; [apply read_multiple_registers_frame|].
  split; [exact H3|].
  intros Hret.
  assert (Hnone : _client (self_of first) = None).
  { destruct (_client self) as [c|] eqn:Hc.
    - destruct (close c) as [u|e].
      + exact (proj2 H3).
      + destruct (is_ModbusException e); [exact (proj2 H3)|].
        destruct H3 as [H3 _]. congruence.
    - rewrite H3. exact Hc. }
  split; [exact Hnone|]. apply async_close_when_closed; assumption.
Qed.

Lemma async_close_clears_handle_under_lock_witness :
  _client Sample.closed_hub = None /\
  async_close Sample.closed_hub
  = (Returns tt, Sample.closed_hub, [LockAcquire; LockRelease]).
Proof.
  pose proof (async_close_clears_handle_under_lock Sample.hub (Some 1) 0 2 eq_refl)
    as H.
  cbv zeta in H. destruct H as (_ & _ & _ & _ & _ & _ & H7).
  exact (H7 eq_refl).
Defined.

(** C10: with a falsy [unit] ([None] or [0]) both read methods call
    [read_input_registers] with no keyword argument at all, so the
    caller's [count] has no effect and the client's own default count
    applies. *)
Theorem falsy_unit_drops_count
        (self : Modbus) (unit : option Z) (address count : Z) :
  optional_int_truthy unit = false ->
  kwargs_of unit count = [] /\
  (forall default, count_argument default (kwargs_of unit count)
                   = Some default) /\
  (forall ev,
      In ev (trace_of (read_single_register unit address count self)) ->
      is_read_event ev = true -> ev = ClientReadInputRegisters address []) /\
  (forall ev,
      In ev (trace_of (read_multiple_registers unit address count self)) ->
      is_read_event ev = true -> ev = ClientReadInputRegisters address []) /\
  (forall c, _client self = Some c ->
      filter is_read_event
        (trace_of (read_single_register unit address count self))
      = [ClientReadInputRegisters address []] /\
      filter is_read_event
        (trace_of (read_multiple_registers unit address count self))
      = [ClientReadInputRegisters address []]) /\
  (forall count',
      read_single_register unit address count' self
      = read_single_register unit address count self /\
      read_multiple_registers unit address count' self
      = read_multiple_registers unit address count self).
Proof.
  intros Hfalsy.
  assert (Hk : forall n, kwargs_of unit n = [])
    by (intros n; apply kwargs_of_falsy; assumption).
  split; [apply Hk|]. split; [intros d; rewrite Hk; reflexivity|].
  assert (Hs : forall ev,
             In ev (trace_of (read_single_register unit address count self)) ->
             is_read_event ev = true -> ev = ClientReadInputRegisters address []).
  { run_method. rewrite Hk. destruct (_client self) as [c|]; cbn; [|tauto].
    destruct (read_input_registers c address []) as [resp|e]; cbn.
    - destruct (registers resp) as [regs|]; cbn.
      + destruct (Pymodbus.fromRegisters regs Pymodbus.Big Pymodbus.Big)
          as [d|e]; cbn.
        * destruct (Pymodbus.decode_32bit_float d); cbn;
            intros ev [<-|[]] _; reflexivity.
        * intros ev [<-|[]] _; reflexivity.
      + intros ev [<-|[<-|[]]] Hev; [reflexivity | discriminate].
    - destruct e; cbn;
        intros ev Hin Hev;
        repeat (destruct Hin as [<-|Hin]; [first [reflexivity | discriminate]|]);
        destruct Hin. }
  assert (Hm : forall ev,
             In ev (trace_of (read_multiple_registers unit address count self)) ->
             is_read_event ev = true -> ev = ClientReadInputRegisters address []).
  { run_method. rewrite Hk. destruct (_client self) as [c|]; cbn; [|tauto].
    destruct (read_input_registers c address []) as [resp|e]; cbn.
    - destruct (registers resp) as [regs|]; cbn.
      + intros ev [<-|[]] _; reflexivity.
      + intros ev [<-|[<-|[]]] Hev; [reflexivity | discriminate].
    - destruct e; cbn;
        intros ev Hin Hev;
        repeat (destruct Hin as [<-|Hin]; [first [reflexivity | discriminate]|]);
        destruct Hin. }
  split; [exact Hs|]. split; [exact Hm|]. split.
  - intros c Hc. split.
    + run_method. rewrite Hk, Hc. cbn.
      destruct (read_input_registers c address []) as [resp|e]; cbn.
      * destruct (registers resp) as [regs|]; cbn; [|reflexivity].
        destruct (Pymodbus.fromRegisters regs Pymodbus.Big Pymodbus.Big)
          as [d|e]; cbn; [|reflexivity].
        destruct (Pymodbus.decode_32bit_float d); reflexivity.
      * destruct e; reflexivity.
    + run_method. rewrite Hk, Hc. cbn.
      destruct (read_input_registers c address []) as [resp|e]; cbn.
      * destruct (registers resp) as [regs|]; reflexivity.
      * destruct e; reflexivity.
  - intros count'. unfold read_single_register, read_multiple_registers.
    rewrite (Hk count'), (Hk count). split; reflexivity.
Qed.

Lemma falsy_unit_drops_count_witness :
  trace_of (read_single_register (Some 0) 7 2 Sample.hub)
  = [ClientReadInputRegisters 7 []] /\
  trace_of (read_multiple_registers None 7 2 Sample.hub)
  = [ClientReadInputRegisters 7 []] /\
  kwargs_of (Some 0) 2 = [].
Proof.
  split; [reflexivity|]. split; [reflexivity|].
  exact (proj1 (falsy_unit_drops_count Sample.hub (Some 0) 7 2 eq_refl)).
Defined.

End ModbusFacts.

(** ** A program logic for methods *)

Section MethodLogic.
Context {Self Event : Type}.
Variable P : Self -> Prop.
Variable Q : Event -> Prop.


Lemma triple_weaken {A} (m : M Self Event A) (R R' : A -> Prop) :
  triple P Q m R -> (forall a, R a -> R' a) -> triple P Q m R'.
Proof.
  intros Hm Himp s Hs. destruct (Hm s Hs) as (H1 & H2 & H3).
  repeat split; auto.
Qed.

Lemma triple_ret {A} (a : A) (R : A -> Prop) : R a -> triple P Q (ret a) R.
Proof.
  intros Ha s Hs. cbn. repeat split; auto.
  intros b Hb. injection Hb as <-. exact Ha.
Qed.

Lemma triple_raise {A} (e : exception) (R : A -> Prop) :
  triple P Q (raise e) R.
Proof. intros s Hs. cbn. repeat split; auto. discriminate. Qed.

Lemma triple_suspend {A} (R : A -> Prop) : triple P Q suspend R.
Proof. intros s Hs. cbn. repeat split; auto. discriminate. Qed.

Lemma triple_emit (ev : Event) : Q ev -> triple P Q (emit ev) anything.
Proof. intros Hev s Hs. cbn. repeat split; auto. Qed.

Lemma triple_get_self : triple P Q get_self P.
Proof.
  intros s Hs. cbn. repeat split; auto.
  intros a Ha. injection Ha as <-. exact Hs.
Qed.

Lemma triple_modify (f : Self -> Self) :
  (forall s, P s -> P (f s)) -> triple P Q (modify f) anything.
Proof. intros Hf s Hs. cbn. repeat split; auto. Qed.

Lemma triple_of_call {A} (c : call A) : triple P Q (of_call c) anything.
Proof.
  destruct c; [apply triple_ret; exact I | apply triple_raise].
Qed.

Lemma triple_bind {A B} (m : M Self Event A) (k : A -> M Self Event B)
      (R : A -> Prop) (R' : B -> Prop) :
  triple P Q m R -> (forall a, R a -> triple P Q (k a) R') -> triple P Q (bind m k) R'.
Proof.
  intros Hm Hk s Hs. destruct (Hm s Hs) as (H1 & H2 & H3).
  unfold bind, self_of, trace_of, result_of in *.
  destruct (m s) as [[o s1] t1]. cbn in *.
  destruct o as [a| |]; cbn.
  - specialize (Hk a (H3 a eq_refl) s1 H1).
    unfold self_of, trace_of, result_of in Hk.
    destruct (k a s1) as [[o2 s2] t2]. cbn in *.
    destruct Hk as (K1 & K2 & K3).
    repeat split; auto. apply Forall_app. split; assumption.
  - repeat split; auto. discriminate.
  - repeat split; auto. discriminate.
Qed.

Lemma triple_try_except {A} (body : M Self Event A)
      (catches : exception -> bool) (handler : exception -> M Self Event A)
      (R : A -> Prop) :
  triple P Q body R -> (forall e, triple P Q (handler e) R) ->
  triple P Q (try_except body catches handler) R.
Proof.
  intros Hb Hh s Hs. destruct (Hb s Hs) as (H1 & H2 & H3).
  unfold try_except, self_of, trace_of, result_of in *.
  destruct (body s) as [[o s1] t1]. cbn in *.
  destruct o as [a|e|]; cbn; [repeat split; auto | | repeat split; auto].
  destruct (catches e); cbn; [|repeat split; auto].
  specialize (Hh e s1 H1). unfold self_of, trace_of, result_of in Hh.
  destruct (handler e s1) as [[o2 s2] t2]. cbn in *.
  destruct Hh as (K1 & K2 & K3).
  repeat split; auto. apply Forall_app. split; assumption.
Qed.

Lemma triple_finally {A} (body : M Self Event A) (cleanup : M Self Event unit)
      (R : A -> Prop) :
  triple P Q body R -> triple P Q cleanup anything -> triple P Q (finally body cleanup) R.
Proof.
  intros Hb Hc s Hs. destruct (Hb s Hs) as (H1 & H2 & H3).
  unfold finally, self_of, trace_of, result_of in *.
  destruct (body s) as [[o s1] t1]. cbn in *.
  specialize (Hc s1 H1). unfold self_of, trace_of, result_of in Hc.
  destruct (cleanup s1) as [[o2 s2] t2]. cbn in *.
  destruct Hc as (K1 & K2 & K3).
  destruct o as [a|e|]; cbn; [| |repeat split; auto];
    destruct o2 as [u|e2|]; cbn; repeat split; auto;
    try (apply Forall_app; split; assumption); discriminate.
Qed.

End MethodLogic.

(** ** The MQTT client *)

Module MqttFacts.
Import MqttClient.

(** The runtime a method resumes in after an [await] completed. *)
Lemma await_run op rt :
  await op rt
  = match wakeups rt with
    | [] => (Suspended, rt, [op])
    | w :: rest =>
        (match resumed w with Ok _ => Returns tt | Throw e => Raises e end,
         wake w rest rt, [op])
    end.
Proof.
  unfold await, bind, emit. destruct (wakeups rt) as [|w rest]; [reflexivity|].
  destruct (resumed w); reflexivity.
Qed.

Section Invariants.
Variable P : runtime -> Prop.
Variable Q : event -> Prop.
Variable interval_ok : Z -> Prop.

Hypothesis P_wakeup : forall rt w rest,
    P rt -> wakeups rt = w :: rest -> P (wake w rest rt).
Hypothesis P_interval : forall rt i,
    P rt -> interval_ok i -> P (on_this (set_reconnect_interval i) rt).
Hypothesis P_create : forall rt,
    P rt -> P (new_client rt).
Hypothesis one_ok : interval_ok 1.
Hypothesis doubled_ok : forall rt,
    P rt -> interval_ok (Z.min (reconnect_interval (this rt) * 2) 900).
Hypothesis Q_set : forall i, interval_ok i -> Q (SetReconnectInterval i).
Hypothesis Q_sleep : forall rt, P rt -> Q (Sleep (reconnect_interval (this rt))).
Hypothesis Q_other : forall ev,
    match ev with
    | SetReconnectInterval _ | Sleep _ => False
    | _ => True
    end -> Q ev.

Lemma triple_await op : Q op -> triple P Q (await op) anything.
Proof.
  intros Hop rt Hrt. rewrite await_run.
  destruct (wakeups rt) as [|w rest] eqn:Hw; cbn.
  - repeat split; auto.
  - pose proof (P_wakeup rt w rest Hrt Hw).
    destruct (resumed w); cbn; repeat split; auto.
Qed.

Lemma triple_create_client : triple P Q create_client anything.
Proof.
  unfold create_client.
  eapply triple_bind; [apply triple_get_self|]. intros rt Hrt.
  eapply triple_bind; [apply triple_modify; apply P_create|]. intros _ _.
  apply triple_emit. apply Q_other. exact I.
Qed.

Lemma triple_subscribe_manager manager :
  triple P Q (_subscribe_manager manager) anything.
Proof.
  unfold _subscribe_manager, with_exit_stack, subscribe.
  apply triple_finally; [|apply triple_emit; apply Q_other; exact I].
  eapply triple_bind; [apply triple_get_self|]. intros rt Hrt.
  eapply triple_bind; [apply triple_await; apply Q_other; exact I|].
  intros _ _.
  eapply triple_bind;
    [apply triple_modify; intros s Hs; apply P_interval; auto|].
  intros _ _.
  eapply triple_bind; [apply triple_emit; apply Q_set; exact one_ok|].
  intros _ _.
  eapply triple_bind; [apply triple_emit; apply Q_other; exact I|].
  intros _ _.
  eapply triple_bind; [apply triple_get_self|]. intros rt1 _.
  eapply triple_bind; [apply triple_await; apply Q_other; exact I|].
  intros _ _.
  eapply triple_bind; [apply triple_emit; apply Q_other; exact I|].
  intros _ _.
  eapply triple_bind.
  { eapply triple_bind; [apply triple_get_self|]. intros rt' _.
    apply triple_await. apply Q_other. exact I. }
  intros _ _. apply triple_await. apply Q_other. exact I.
Qed.

Lemma triple_reconnect err : triple P Q (reconnect err) anything.
Proof.
  unfold reconnect.
  eapply triple_bind; [apply triple_get_self|]. intros rt Hrt. cbv zeta.
  eapply triple_bind;
    [apply triple_modify; intros s Hs; apply P_interval;
     [exact Hs | apply doubled_ok; exact Hrt]|].
  intros _ _.
  eapply triple_bind;
    [apply triple_emit; apply Q_set; apply doubled_ok; exact Hrt|].
  intros _ _.
  eapply triple_bind; [apply triple_get_self|]. intros rt' Hrt'.
  eapply triple_bind; [apply triple_emit; apply Q_other; exact I|].
  intros _ _.
  eapply triple_bind; [apply triple_await; apply Q_sleep; exact Hrt'|].
  intros _ _. apply triple_create_client.
Qed.

Lemma triple_start_client_turn manager :
  triple P Q (start_client_turn manager) anything.
Proof.
  unfold start_client_turn. apply triple_try_except.
  - apply triple_subscribe_manager.
  - apply triple_reconnect.
Qed.

Lemma triple_iterate n body :
  triple P Q body anything -> triple P Q (iterate n body) anything.
Proof.
  intros Hbody. induction n as [|n IH]; cbn [iterate].
  - apply triple_suspend.
  - eapply triple_bind; [exact Hbody|]. intros _ _. exact IH.
Qed.

Lemma triple_start_client manager :
  triple P Q (start_client manager) anything.
Proof.
  intros rt Hrt. unfold start_client, while_true.
  apply (triple_iterate _ _ (triple_start_client_turn manager) rt Hrt).
Qed.
End Invariants.

Ltac run_co :=
  unfold start_client_turn, reconnect, _subscribe_manager, with_exit_stack,
    subscribe, publish, create_client, await, try_except, finally, bind,
    get_self, modify, emit, ret, raise, suspend, result_of, self_of,
    trace_of;
  cbn.

(** *** The session *)

Lemma subscribe_manager_trace manager rt :
  let c := asyncio_client (this rt) in
  let full :=
    [Connect c; SetReconnectInterval 1; CreateTask publish_task;
     UnfilteredMessages c; CreateTask messages_task;
     Subscribe c (relay_topic manager) 0 10;
     Gather [publish_task; messages_task]] in
  exists n : nat,
    trace_of (_subscribe_manager manager rt) = firstn n full \/
    trace_of (_subscribe_manager manager rt) = firstn n full ++ [ExitStack].
Proof.
  cbv zeta. run_co.
  destruct (wakeups rt) as [|[m1 [[]|e1]] ws]; cbn;
    [exists 1%nat; left; reflexivity | | exists 1%nat; right; reflexivity].
  destruct ws as [|[m2 [[]|e2]] ws]; cbn;
    [exists 4%nat; left; reflexivity | | exists 4%nat; right; reflexivity].
  destruct ws as [|[m3 [[]|e3]] ws]; cbn;
    [exists 6%nat; left; reflexivity | | exists 6%nat; right; reflexivity].
  destruct ws as [|[m4 [[]|e4]] ws]; cbn;
    [exists 7%nat; left; reflexivity | exists 7%nat; right; reflexivity
    | exists 7%nat; right; reflexivity].
Qed.

Lemma subscribe_manager_subscribe_fails manager rt w1 w2 w3 rest e :
  wakeups rt = w1 :: w2 :: w3 :: rest ->
  resumed w1 = Ok tt -> resumed w2 = Ok tt -> resumed w3 = Throw e ->
  let c := asyncio_client (this rt) in
  result_of (_subscribe_manager manager rt) = Raises e /\
  trace_of (_subscribe_manager manager rt)
  = [Connect c; SetReconnectInterval 1; CreateTask publish_task;
     UnfilteredMessages c; CreateTask messages_task;
     Subscribe c (relay_topic manager) 0 10; ExitStack].
Proof.
  intros Hw H1 H2 H3. cbv zeta. run_co. rewrite Hw. cbn.
  rewrite H1. cbn. rewrite H2. cbn. rewrite H3. cbn. split; reflexivity.
Qed.

Lemma subscribe_manager_connect_fails manager rt w rest e :
  wakeups rt = w :: rest -> resumed w = Throw e ->
  _subscribe_manager manager rt
  = (Raises e, wake w rest rt, [Connect (asyncio_client (this rt)); ExitStack]).
Proof.
  intros Hw He. run_co. rewrite Hw. cbn. rewrite He. reflexivity.
Qed.

(** *** The retry path *)

Lemma reconnect_run err rt :
  let d := Z.min (reconnect_interval (this rt) * 2) 900 in
  reconnect err rt
  = match wakeups rt with
    | [] =>
        (Suspended, on_this (set_reconnect_interval d) rt,
         [SetReconnectInterval d; LogError err d; Sleep d])
    | w :: rest =>
        match resumed w with
        | Ok _ =>
            (Returns tt,
             new_client (wake w rest (on_this (set_reconnect_interval d) rt)),
             [SetReconnectInterval d; LogError err d; Sleep d;
              CreateClient (created rt)])
        | Throw e =>
            (Raises e, wake w rest (on_this (set_reconnect_interval d) rt),
             [SetReconnectInterval d; LogError err d; Sleep d])
        end
    end.
Proof.
  cbv zeta. run_co. destruct (wakeups rt) as [|w rest]; [reflexivity|].
  cbn. destruct (resumed w); reflexivity.
Qed.

Lemma turn_connect_fails manager rt a b rest :
  wakeups rt = failed_attempt a b ++ rest ->
  let d := Z.min (reconnect_interval (this rt) * 2) 900 in
  exists rt',
    start_client_turn manager rt
    = (Returns tt, rt',
       [Connect (asyncio_client (this rt)); ExitStack;
        SetReconnectInterval d; LogError MqttError d; Sleep d;
        CreateClient (created rt)]) /\
    wakeups rt' = rest /\
    reconnect_interval (this rt') = d /\
    host (this rt') = host (this rt) /\
    port (this rt') = port (this rt) /\
    publish_queue (this rt')
    = run_others (a ++ b) (publish_queue (this rt)).
Proof.
  intros Hw. cbv zeta. unfold start_client_turn, try_except.
  rewrite (subscribe_manager_connect_fails manager rt _ _ MqttError Hw eq_refl).
  cbv beta iota delta [is_MqttError exception_eqb].
  rewrite reconnect_run. cbn. eexists. split; [reflexivity|].
  cbn. unfold run_others. rewrite fold_left_app. repeat split.
Qed.

(** *** Backoff *)

Lemma sleeps_app t1 t2 : sleeps (t1 ++ t2) = sleeps t1 ++ sleeps t2.
Proof. unfold sleeps. apply flat_map_app. Qed.

Lemma doubling_step i k :
  Z.min (i * 2 ^ Z.of_nat (S k)) 900
  = Z.min (Z.min (i * 2) 900 * 2 ^ Z.of_nat k) 900.
Proof.
  rewrite Nat2Z.inj_succ, Z.pow_succ_r by lia.
  assert (Hp : 1 <= 2 ^ Z.of_nat k) by (apply Z.pow_le_mono_r with (b := 0); lia).
  generalize dependent (2 ^ Z.of_nat k). intros p Hp.
  destruct (Z.min_spec (i * 2) 900) as [[H1 ->] | [H1 ->]].
  - f_equal. ring.
  - rewrite !Z.min_r by nia. reflexivity.
Qed.

Lemma doubled_sleeps_succ i n :
  doubled_sleeps i (S n)
  = Z.min (i * 2) 900 :: doubled_sleeps (Z.min (i * 2) 900) n.
Proof.
  unfold doubled_sleeps. cbn [seq map].
  change (2 ^ Z.of_nat 1) with 2.
  rewrite <- seq_shift, map_map.
  rewrite (map_ext _ _ (fun k => doubling_step i k)). reflexivity.
Qed.

Lemma outage_sleeps manager activity :
  forall rt n,
    wakeups rt = outage activity ->
    (List.length activity < n)%nat ->
    sleeps (trace_of (iterate n (start_client_turn manager) rt))
    = doubled_sleeps (reconnect_interval (this rt)) (List.length activity).
Proof.
  induction activity as [|[a b] activity IH]; intros rt n Hw Hn.
  - destruct n as [|n]; [lia|]. cbn [iterate].
    unfold bind, start_client_turn. run_co. rewrite Hw. reflexivity.
  - destruct n as [|n]; [cbn in Hn; lia|]. cbn [iterate].
    destruct (turn_connect_fails manager rt a b (outage activity) Hw)
      as (rt' & Hturn & Hw' & Hi & _).
    unfold bind. rewrite Hturn.
    specialize (IH rt' n Hw' ltac:(cbn in Hn; lia)).
    unfold trace_of in *.
    destruct (iterate n (start_client_turn manager) rt') as [[o s2] t2].
    cbn [snd] in *. rewrite sleeps_app, IH, Hi.
    cbn [List.length]. rewrite doubled_sleeps_succ. reflexivity.
Qed.

Lemma outage_length activity :
  List.length (outage activity) = (2 * List.length activity)%nat.
Proof.
  induction activity as [|[a b] activity IH]; [reflexivity|].
  cbn [outage flat_map]. rewrite length_app. fold (outage activity).
  rewrite IH. cbn. lia.
Qed.

(** C1, as stated, fails: three failed connection attempts from interval 1
    sleep 2, 4 and 8 seconds, not 1, 1 and 2. *)
Lemma first_sleep_is_doubled :
  let quiet := [([], []); ([], []); ([], [])] in
  sleeps (trace_of (start_client Sample.manager (Sample.client (outage quiet))))
  = [2; 4; 8] /\
  announced_sleeps 3 = [1; 1; 2] /\
  sleeps (trace_of (start_client Sample.manager (Sample.client (outage quiet))))
  <> announced_sleeps (List.length quiet).
Proof.
  cbv zeta. split; [reflexivity|]. split; [reflexivity|].
  intros H. vm_compute in H. discriminate H.
Qed.

(** C1, amended: on a failure the retry path first stores
    [min(2 * current, 900)] and then sleeps for the stored, doubled
    interval; for consecutive failed connection attempts starting at
    interval 1 the sleeps are 2, 4, 8, ..., capped at 900. *)
Theorem backoff_sleeps_stored_interval
        (manager : Manager) (rt : runtime) (err : exception)
        (activity : list (list other * list other)) :
  let d := Z.min (reconnect_interval (this rt) * 2) 900 in
  (reconnect_interval (this (self_of (reconnect err rt))) = d /\
   firstn 3 (trace_of (reconnect err rt))
   = [SetReconnectInterval d; LogError err d; Sleep d] /\
   sleeps (trace_of (reconnect err rt)) = [d]) /\
  (wakeups rt = outage activity ->
   reconnect_interval (this rt) = 1 ->
   sleeps (trace_of (start_client manager rt))
   = doubled_sleeps 1 (List.length activity)).
Proof.
  cbv zeta. split.
  - rewrite reconnect_run. cbv zeta.
    destruct (wakeups rt) as [|w rest]; [repeat split|].
    destruct (resumed w); repeat split.
  - intros Hw Hi. unfold start_client, while_true. rewrite <- Hi.
    apply outage_sleeps; [exact Hw|]. rewrite Hw, outage_length. lia.
Qed.

Lemma backoff_sleeps_stored_interval_witness :
  sleeps (trace_of (start_client Sample.manager
                      (Sample.client (outage [([], []); ([], [])]))))
  = [2; 4].
Proof.
  exact (proj2 (backoff_sleeps_stored_interval
                  Sample.manager
                  (Sample.client (outage [([], []); ([], [])]))
                  MqttError [([], []); ([], [])])
               eq_refl eq_refl).
Defined.

(** *** Session setup *)

(** C2, as stated, fails: when the subscription fails, both tasks have
    been created already, before the subscription was issued. *)
Lemma tasks_created_before_failed_subscribe :
  let r := _subscribe_manager Sample.manager
             (Sample.client [Sample.completes; Sample.completes; Sample.fails]) in
  result_of r = Raises MqttError /\
  index_of (is_create_task publish_task) (trace_of r) = Some 2%nat /\
  index_of (is_create_task messages_task) (trace_of r) = Some 4%nat /\
  index_of is_subscribe (trace_of r) = Some 5%nat.
Proof. cbv zeta. repeat split. Qed.

(** C2, amended: the subscription to the control topic is issued after
    the publish task and the messages task have been created; a
    subscription failure ends the session with the exception, [gather] is
    never reached, and both tasks exist by then. *)
Theorem subscription_follows_task_creation (manager : Manager) (rt : runtime) :
  let r := _subscribe_manager manager rt in
  (forall i, index_of is_subscribe (trace_of r) = Some i ->
     index_of (is_create_task publish_task) (trace_of r) = Some 2%nat /\
     index_of (is_create_task messages_task) (trace_of r) = Some 4%nat /\
     i = 5%nat) /\
  (forall w1 w2 w3 rest e,
     wakeups rt = w1 :: w2 :: w3 :: rest ->
     resumed w1 = Ok tt -> resumed w2 = Ok tt -> resumed w3 = Throw e ->
     result_of r = Raises e /\
     index_of is_gather (trace_of r) = None /\
     trace_of r
     = [Connect (asyncio_client (this rt)); SetReconnectInterval 1;
        CreateTask publish_task; UnfilteredMessages (asyncio_client (this rt));
        CreateTask messages_task;
        Subscribe (asyncio_client (this rt)) (relay_topic manager) 0 10;
        ExitStack]).
Proof.
  cbv zeta. split.
  - run_co.
    destruct (wakeups rt) as [|[m1 [[]|e1]] ws]; cbn; try discriminate.
    destruct ws as [|[m2 [[]|e2]] ws]; cbn; try discriminate.
    destruct ws as [|[m3 [[]|e3]] ws]; cbn;
      try (intros i Hi; injection Hi as <-; repeat split).
    destruct ws as [|[m4 [[]|e4]] ws]; cbn;
      intros i Hi; injection Hi as <-; repeat split.
  - intros w1 w2 w3 rest e Hw H1 H2 H3.
    destruct (subscribe_manager_subscribe_fails manager rt w1 w2 w3 rest e
                Hw H1 H2 H3) as [Hr Ht].
    split; [exact Hr|]. rewrite Ht. split; reflexivity.
Qed.

Lemma subscription_follows_task_creation_witness :
  result_of (_subscribe_manager Sample.manager
               (Sample.client [Sample.completes; Sample.completes; Sample.fails]))
  = Raises MqttError.
Proof.
  exact (proj1 (proj2 (subscription_follows_task_creation
                         Sample.manager
                         (Sample.client
                            [Sample.completes; Sample.completes; Sample.fails]))
                      Sample.completes Sample.completes Sample.fails []
                      MqttError eq_refl eq_refl eq_refl eq_refl)).
Defined.

(** *** The reconnect interval *)

Lemma interval_in_range_doubled i :
  interval_in_range i -> interval_in_range (Z.min (i * 2) 900).
Proof. unfold interval_in_range. lia. Qed.

Lemma start_client_interval_bounded manager :
  triple (fun rt => interval_in_range (reconnect_interval (this rt)))
         good_event (start_client manager) anything.
Proof.
  apply triple_start_client with (interval_ok := interval_in_range).
  - intros rt w rest H _. exact H.
  - intros rt i _ H. exact H.
  - intros rt H. exact H.
  - unfold interval_in_range. lia.
  - intros rt H. apply interval_in_range_doubled. exact H.
  - intros i H. exact H.
  - intros rt H. exact H.
  - intros ev H. destruct ev; cbn in *; tauto.
Qed.

(** C5, as stated, fails: after three failed connection attempts, a
    session connects and its subscription fails; the interval is back at
    1 before the subscription is issued, so the next sleep is 2 (not 16)
    although no subscription ever completed. *)
Lemma interval_reset_before_subscribe :
  let ws := outage [([], []); ([], []); ([], [])]
            ++ [Sample.completes; Sample.completes; Sample.fails;
                Sample.completes] in
  let r := start_client Sample.manager (Sample.client ws) in
  stored_intervals (trace_of r) = [2; 4; 8; 1; 2] /\
  sleeps (trace_of r) = [2; 4; 8; 2] /\
  index_of is_gather (trace_of r) = None /\
  let session :=
    _subscribe_manager Sample.manager
      (on_this (set_reconnect_interval 8)
               (Sample.client [Sample.completes; Sample.completes; Sample.fails])) in
  result_of session = Raises MqttError /\
  reconnect_interval (this (self_of session)) = 1 /\
  index_of is_set_interval (trace_of session) = Some 1%nat /\
  index_of is_subscribe (trace_of session) = Some 5%nat.
Proof. cbv zeta. repeat split. Qed.

(** C5, amended: the interval starts at 1 and stays within 1..900 at
    every store and at the end of every run of the supervisor loop; each
    failure stores [min(2 * previous, 900)]; the interval is reset to 1 as
    soon as the connection to the broker is entered, before the tasks are
    created and before the subscription is issued, and it is left alone
    when the connection attempt fails. *)
Theorem reconnect_interval_bounded
        (manager : Manager) (rt : runtime) (err : exception) :
  (forall h p made ws,
      reconnect_interval (this (self_of (__init__ h p made ws))) = 1) /\
  (interval_in_range (reconnect_interval (this rt)) ->
   interval_in_range
     (reconnect_interval (this (self_of (start_client manager rt)))) /\
   Forall good_event (trace_of (start_client manager rt))) /\
  reconnect_interval (this (self_of (reconnect err rt)))
  = Z.min (reconnect_interval (this rt) * 2) 900 /\
  (let r := _subscribe_manager manager rt in
   match wakeups rt with
   | w :: _ =>
       match resumed w with
       | Ok _ =>
           reconnect_interval (this (self_of r)) = 1 /\
           firstn 3 (trace_of r)
           = [Connect (asyncio_client (this rt)); SetReconnectInterval 1;
              CreateTask publish_task]
       | Throw _ =>
           reconnect_interval (this (self_of r)) = reconnect_interval (this rt) /\
           stored_intervals (trace_of r) = []
       end
   | [] =>
       reconnect_interval (this (self_of r)) = reconnect_interval (this rt) /\
       stored_intervals (trace_of r) = []
   end).
Proof.
  split; [reflexivity|]. split; [|split].
  - intros Hrt.
    destruct (start_client_interval_bounded manager rt Hrt) as (H1 & H2 & _).
    split; assumption.
  - rewrite reconnect_run. cbv zeta.
    destruct (wakeups rt) as [|w rest]; [reflexivity|].
    destruct (resumed w); reflexivity.
  - cbv zeta. run_co.
    destruct (wakeups rt) as [|[m1 [[]|e1]] ws]; cbn; [split; reflexivity| |split; reflexivity].
    destruct ws as [|[m2 [[]|e2]] ws]; cbn; [split; reflexivity| |split; reflexivity].
    destruct ws as [|[m3 [[]|e3]] ws]; cbn; [split; reflexivity| |split; reflexivity].
    destruct ws as [|[m4 [[]|e4]] ws]; cbn; split; reflexivity.
Qed.

Lemma reconnect_interval_bounded_witness :
  interval_in_range
    (reconnect_interval
       (this (self_of (start_client Sample.manager
                         (Sample.client (outage [([], []); ([], [])])))))).
Proof.
  refine (proj1 (proj1 (proj2 (reconnect_interval_bounded
                          Sample.manager
                          (Sample.client (outage [([], []); ([], [])]))
                          MqttError)) _)).
  unfold interval_in_range. cbn. lia.
Defined.

(** *** The publish queue across failures *)

Lemma run_others_app os1 os2 q :
  run_others (os1 ++ os2) q = run_others os2 (run_others os1 q).
Proof. unfold run_others. apply fold_left_app. Qed.

Lemma queue_left_to_others_refl rt : queue_left_to_others rt rt.
Proof.
  split; [reflexivity|]. split; [reflexivity|].
  exists []. split; reflexivity.
Qed.

Lemma start_client_frame manager rt0 :
  triple (queue_left_to_others rt0) (fun _ => True)
         (start_client manager) anything.
Proof.
  apply triple_start_client with (interval_ok := fun _ => True); auto.
  - intros rt w rest (Hh & Hp & used & Hu & Hq) Hw.
    repeat split; try assumption.
    exists (used ++ [w]). cbn. split.
    + rewrite Hu, Hw, <- app_assoc. reflexivity.
    + rewrite flat_map_app, run_others_app, <- Hq. cbn.
      rewrite app_nil_r. reflexivity.
Qed.

Lemma item_eqb_eq x y : UniqueQueue.item_eqb x y = true <-> x = y.
Proof.
  unfold UniqueQueue.item_eqb. destruct x as [a b], y as [c d]. cbn.
  rewrite andb_true_iff, !String.eqb_eq. split.
  - intros [-> ->]. reflexivity.
  - intros H. injection H as -> ->. split; reflexivity.
Qed.

Lemma mem_In x l : UniqueQueue.mem x l = true <-> In x l.
Proof.
  unfold UniqueQueue.mem. rewrite existsb_exists. split.
  - intros [y [Hy Heq]]. apply item_eqb_eq in Heq. subst. exact Hy.
  - intros H. exists x. split; [exact H | apply item_eqb_eq; reflexivity].
Qed.

Lemma put_nowait_In x q :
  In x (UniqueQueue.pending (UniqueQueue.put_nowait x q)).
Proof.
  unfold UniqueQueue.put_nowait.
  destruct (UniqueQueue.mem x (UniqueQueue.pending q)) eqn:Hm.
  - apply mem_In. exact Hm.
  - cbn. apply in_or_app. right. left. reflexivity.
Qed.

Lemma put_nowait_keeps x y q :
  In y (UniqueQueue.pending q) ->
  In y (UniqueQueue.pending (UniqueQueue.put_nowait x q)).
Proof.
  intros H. unfold UniqueQueue.put_nowait.
  destruct (UniqueQueue.mem x (UniqueQueue.pending q)); [exact H|].
  cbn. apply in_or_app. left. exact H.
Qed.

Lemma puts_keep os :
  forall q y,
    forallb is_put os = true ->
    In y (UniqueQueue.pending q) ->
    In y (UniqueQueue.pending (run_others os q)).
Proof.
  induction os as [|o os IH]; intros q y Hall Hy; [exact Hy|].
  cbn in Hall. apply andb_true_iff in Hall as [Ho Hall].
  destruct o as [x|]; [|discriminate]. cbn.
  apply IH; [exact Hall|]. apply put_nowait_keeps. exact Hy.
Qed.

Lemma puts_arrive os :
  forall q x,
    forallb is_put os = true ->
    In (Put x) os ->
    In x (UniqueQueue.pending (run_others os q)).
Proof.
  induction os as [|o os IH]; intros q x Hall Hx; [destruct Hx|].
  cbn in Hall. apply andb_true_iff in Hall as [Ho Hall].
  destruct Hx as [-> | Hx].
  - cbn. apply puts_keep; [exact Hall|]. apply put_nowait_In.
  - cbn. apply IH; assumption.
Qed.

Lemma outage_queue manager activity :
  forall rt n,
    wakeups rt = outage activity ->
    (List.length activity < n)%nat ->
    publish_queue (this (self_of (iterate n (start_client_turn manager) rt)))
    = run_others (outage_activity activity) (publish_queue (this rt)).
Proof.
  induction activity as [|[a b] activity IH]; intros rt n Hw Hn.
  - destruct n as [|n]; [lia|]. cbn [iterate].
    unfold bind, start_client_turn. run_co. rewrite Hw. reflexivity.
  - destruct n as [|n]; [cbn in Hn; lia|]. cbn [iterate].
    destruct (turn_connect_fails manager rt a b (outage activity) Hw)
      as (rt' & Hturn & Hw' & _ & _ & _ & Hq).
    unfold bind. rewrite Hturn.
    specialize (IH rt' n Hw' ltac:(cbn in Hn; lia)).
    unfold self_of in *.
    destruct (iterate n (start_client_turn manager) rt') as [[o s2] t2].
    cbn [fst snd] in *. rewrite IH, Hq.
    unfold outage_activity. cbn [flat_map fst snd].
    rewrite (run_others_app (a ++ b)). reflexivity.
Qed.

Lemma set_publish_queue_same self :
  set_publish_queue (publish_queue self) self = self.
Proof. destruct self; reflexivity. Qed.

(** C7: the retry path replaces the client object and the reconnect
    interval and nothing else; along any run of the supervisor the publish
    queue changes only by what the other tasks put and take while the
    supervisor is suspended; so whatever is put during an outage, while
    nothing is taken, is still pending when the outage ends. *)
Theorem publish_queue_survives_failure
        (manager : Manager) (rt : runtime) (err : exception)
        (activity : list (list other * list other)) :
  (forall w rest,
      wakeups rt = w :: rest -> meanwhile w = [] -> resumed w = Ok tt ->
      this (self_of (reconnect err rt))
      = set_asyncio_client (created rt)
          (set_reconnect_interval
             (Z.min (reconnect_interval (this rt) * 2) 900) (this rt))) /\
  queue_left_to_others rt (self_of (reconnect err rt)) /\
  queue_left_to_others rt (self_of (start_client manager rt)) /\
  (wakeups rt = outage activity ->
   forallb is_put (outage_activity activity) = true ->
   forall x,
     In x (UniqueQueue.pending (publish_queue (this rt))) \/
     In (Put x) (outage_activity activity) ->
     In x (UniqueQueue.pending
             (publish_queue (this (self_of (start_client manager rt)))))).
Proof.
  split; [|split; [|split]].
  - intros w rest Hw Hm Hr. rewrite reconnect_run. cbv zeta.
    rewrite Hw, Hr. cbn. rewrite Hm. cbn.
    destruct (this rt); reflexivity.
  - rewrite reconnect_run. cbv zeta.
    destruct (wakeups rt) as [|w rest] eqn:Hw.
    + split; [reflexivity|]. split; [reflexivity|].
      exists []. split; reflexivity.
    + destruct (resumed w);
        (split; [reflexivity|]; split; [reflexivity|];
         exists [w]; cbn; rewrite app_nil_r; split; [exact Hw | reflexivity]).
  - apply (start_client_frame manager rt rt (queue_left_to_others_refl rt)).
  - intros Hw Hputs x Hx.
    unfold start_client, while_true.
    rewrite (outage_queue manager activity rt _ Hw)
      by (rewrite Hw, outage_length; lia).
    destruct Hx as [Hx | Hx].
    + apply puts_keep; assumption.
    + apply puts_arrive; assumption.
Qed.

Lemma publish_queue_survives_failure_witness :
  let activity := [([Put ("boneio/input/1", "pressed")], []);
                   ([], [Put ("boneio/relay/2", "ON")])] in
  UniqueQueue.pending
    (publish_queue
       (this (self_of (start_client Sample.manager
                         (Sample.client (outage activity))))))
  = [("boneio/input/1", "pressed"); ("boneio/relay/2", "ON")] /\
  In ("boneio/relay/2", "ON")
     (UniqueQueue.pending
        (publish_queue
           (this (self_of (start_client Sample.manager
                             (Sample.client (outage activity))))))).
Proof.
  cbv zeta. split; [reflexivity|].
  apply (proj2 (proj2 (proj2 (publish_queue_survives_failure
                                Sample.manager
                                (Sample.client
                                   (outage
                                      [([Put ("boneio/input/1", "pressed")], []);
                                       ([], [Put ("boneio/relay/2", "ON")])]))
                                MqttError
                                [([Put ("boneio/input/1", "pressed")], []);
                                 ([], [Put ("boneio/relay/2", "ON")])])))).
  - reflexivity.
  - reflexivity.
  - right. cbn. right. left. reflexivity.
Defined.

(** *** Pending items are unique *)

Lemma NoDup_snoc (l : list UniqueQueue.item) x :
  NoDup l -> ~ In x l -> NoDup (l ++ [x]).
Proof.
  induction 1 as [|y l Hy Hl IH]; intros Hx; cbn.
  - constructor; [intros []|constructor].
  - constructor.
    + intros Hin. apply in_app_or in Hin as [Hin | [<- | []]].
      * exact (Hy Hin).
      * apply Hx. left. reflexivity.
    + apply IH. intros Hin. apply Hx. right. exact Hin.
Qed.

Lemma put_nowait_NoDup x q :
  NoDup (UniqueQueue.pending q) ->
  NoDup (UniqueQueue.pending (UniqueQueue.put_nowait x q)).
Proof.
  intros H. unfold UniqueQueue.put_nowait.
  destruct (UniqueQueue.mem x (UniqueQueue.pending q)) eqn:Hm; [exact H|].
  cbn. apply NoDup_snoc; [exact H|].
  intros Hin. apply mem_In in Hin. congruence.
Qed.

Lemma other_step_NoDup q o :
  NoDup (UniqueQueue.pending q) -> NoDup (UniqueQueue.pending (other_step q o)).
Proof.
  intros H. destruct o as [x|]; cbn.
  - apply put_nowait_NoDup. exact H.
  - unfold UniqueQueue.get_nowait.
    destruct (UniqueQueue.pending q) as [|y rest] eqn:Hp; [rewrite Hp; exact H|].
    cbn. inversion H. assumption.
Qed.

Lemma run_others_NoDup os :
  forall q, NoDup (UniqueQueue.pending q) ->
            NoDup (UniqueQueue.pending (run_others os q)).
Proof.
  induction os as [|o os IH]; intros q H; [exact H|].
  cbn. apply IH. apply other_step_NoDup. exact H.
Qed.

Lemma NoDup_one_instance (l : list UniqueQueue.item) x :
  NoDup l -> In x l ->
  List.length (filter (UniqueQueue.item_eqb x) l) = 1%nat.
Proof.
  induction 1 as [|y l Hy Hl IH]; intros Hx; [destruct Hx|].
  assert (Hnone : forall l', ~ In x l' ->
                             filter (UniqueQueue.item_eqb x) l' = []).
  { induction l' as [|z l' IH']; intros Hz; [reflexivity|]. cbn.
    destruct (UniqueQueue.item_eqb x z) eqn:E.
    - apply item_eqb_eq in E. subst. exfalso. apply Hz. left. reflexivity.
    - apply IH'. intros H'. apply Hz. right. exact H'. }
  cbn. destruct (UniqueQueue.item_eqb x y) eqn:E.
  - apply item_eqb_eq in E. subst y. cbn. rewrite (Hnone l Hy). reflexivity.
  - destruct Hx as [-> | Hx].
    + assert (UniqueQueue.item_eqb x x = true) by (apply item_eqb_eq; reflexivity).
      congruence.
    + apply IH. exact Hx.
Qed.

Lemma put_nowait_pending x q :
  In x (UniqueQueue.pending q) -> UniqueQueue.put_nowait x q = q.
Proof.
  intros H. unfold UniqueQueue.put_nowait.
  apply mem_In in H. rewrite H. reflexivity.
Qed.

(** *** Draining the queue *)

Lemma published_app t1 t2 : published (t1 ++ t2) = published t1 ++ published t2.
Proof. unfold published. apply flat_map_app. Qed.

Ltac run_queue :=
  unfold handle_publish_turn, publish, await, bind, get_self, modify, emit,
    ret, suspend, result_of, self_of, trace_of.

Lemma queue_get_ready n rt x rest :
  UniqueQueue.pending (publish_queue (this rt)) = x :: rest ->
  queue_get n rt
  = (Returns x,
     on_this (set_publish_queue
                {| UniqueQueue.pending := rest;
                   UniqueQueue.acked := UniqueQueue.acked (publish_queue (this rt)) |})
             rt,
     []).
Proof.
  intros Hp.
  destruct n; cbn [queue_get]; unfold bind, get_self, modify, ret,
    UniqueQueue.get_nowait; cbn; rewrite Hp; reflexivity.
Qed.

Lemma queue_get_idle k :
  forall rt,
    UniqueQueue.pending (publish_queue (this rt)) = [] ->
    wakeups rt = undisturbed k ->
    result_of (queue_get k rt) = Suspended /\
    published (trace_of (queue_get k rt)) = [].
Proof.
  induction k as [|k IH]; intros rt Hp Hw.
  - cbn [queue_get]. unfold bind, get_self, UniqueQueue.get_nowait. cbn.
    rewrite Hp. cbn. split; reflexivity.
  - cbn [queue_get]. run_queue. unfold UniqueQueue.get_nowait. cbn.
    rewrite Hp. cbn. rewrite Hw. cbn.
    specialize (IH (wake {| meanwhile := []; resumed := Ok tt |}
                         (undisturbed k) rt)).
    cbn in IH. specialize (IH Hp eq_refl).
    unfold result_of, trace_of in IH.
    destruct (queue_get k _) as [[o s2] t2]. cbn in *.
    destruct IH as [-> Ht]. split; [reflexivity | exact Ht].
Qed.

Lemma handle_publish_turn_ready rt x rest k :
  UniqueQueue.pending (publish_queue (this rt)) = x :: rest ->
  wakeups rt = undisturbed (S k) ->
  exists rt',
    handle_publish_turn rt
    = (Returns tt, rt',
       [Publish (asyncio_client (this rt)) (fst x)
                (if str_truthy (snd x) then Some (snd x) else None)
                0 false 10]) /\
    UniqueQueue.pending (publish_queue (this rt')) = rest /\
    wakeups rt' = undisturbed k.
Proof.
  intros Hp Hw. unfold handle_publish_turn.
  unfold bind at 1. unfold get_self at 1. unfold bind at 1.
  rewrite (queue_get_ready _ rt x rest Hp).
  run_queue. cbn. rewrite Hw. cbn. eexists. split; [reflexivity|].
  split; reflexivity.
Qed.

Lemma handle_publish_turn_idle rt k :
  UniqueQueue.pending (publish_queue (this rt)) = [] ->
  wakeups rt = undisturbed k ->
  result_of (handle_publish_turn rt) = Suspended /\
  published (trace_of (handle_publish_turn rt)) = [].
Proof.
  intros Hp Hw.
  destruct (queue_get_idle k rt Hp Hw) as [Hr Ht].
  unfold handle_publish_turn, bind, get_self. cbv beta iota zeta.
  replace (List.length (wakeups rt)) with k
    by (rewrite Hw; unfold undisturbed; rewrite repeat_length; reflexivity).
  unfold result_of, trace_of in *.
  destruct (queue_get k rt) as [[o s2] t2]. cbn in *. subst o.
  split; [reflexivity | exact Ht].
Qed.

Lemma handle_publish_drains items :
  forall rt n k,
    UniqueQueue.pending (publish_queue (this rt)) = items ->
    wakeups rt = undisturbed k ->
    (List.length items <= k)%nat ->
    (List.length items < n)%nat ->
    published (trace_of (iterate n handle_publish_turn rt))
    = map as_published items.
Proof.
  induction items as [|x items IH]; intros rt n k Hp Hw Hk Hn.
  - destruct n as [|n]; [lia|]. cbn [iterate]. unfold bind.
    destruct (handle_publish_turn_idle rt k Hp Hw) as [Hr Ht].
    unfold result_of, trace_of in *.
    destruct (handle_publish_turn rt) as [[o s2] t2]. cbn in *. subst o.
    exact Ht.
  - destruct n as [|n]; [cbn in Hn; lia|].
    destruct k as [|k]; [cbn in Hk; lia|]. cbn [iterate]. unfold bind.
    destruct (handle_publish_turn_ready rt x items k Hp Hw)
      as (rt' & Hturn & Hp' & Hw').
    rewrite Hturn.
    specialize (IH rt' n k Hp' Hw' ltac:(cbn in Hk; lia) ltac:(cbn in Hn; lia)).
    unfold trace_of in *.
    destruct (iterate n handle_publish_turn rt') as [[o s2] t2].
    cbn in *. rewrite IH. reflexivity.
Qed.

Lemma send_message_queue {dict : Type} (json_dumps : dict -> string)
      topic (p : payload dict) self :
  publish_queue (send_message json_dumps topic p self)
  = UniqueQueue.put_nowait
      (topic, match p with PDict d => json_dumps d | PStr s => s end)
      (publish_queue self).
Proof. reflexivity. Qed.

(** C6: the publish queue never holds two pending instances of one
    [(topic, payload)] item; [send_message] of an item that is already
    pending changes nothing, and an item sent twice before the publish
    task runs is handed to the broker client exactly once. *)
Theorem pending_items_unique
        {dict : Type} (json_dumps : dict -> string)
        (topic : string) (p : payload dict) (self : MQTTClient)
        (os : list other) (rt : runtime) (k : nat) :
  let x := (topic, match p with PDict d => json_dumps d | PStr s => s end) in
  let send := send_message json_dumps topic p in
  NoDup (UniqueQueue.pending (run_others os UniqueQueue.empty)) /\
  (NoDup (UniqueQueue.pending (publish_queue self)) ->
   NoDup (UniqueQueue.pending (publish_queue (send self))) /\
   List.length (filter (UniqueQueue.item_eqb x)
                       (UniqueQueue.pending (publish_queue (send self))))
   = 1%nat) /\
  (In x (UniqueQueue.pending (publish_queue self)) -> send self = self) /\
  send (send self) = send self /\
  (UniqueQueue.pending (publish_queue (this rt)) = [] ->
   wakeups rt = undisturbed (S k) ->
   published (trace_of (_handle_publish (on_this send (on_this send rt))))
   = [as_published x]).
Proof.
  cbv zeta.
  set (x := (topic, match p with PDict d => json_dumps d | PStr s => s end)).
  assert (Hsame : forall s0, In x (UniqueQueue.pending (publish_queue s0)) ->
                             send_message json_dumps topic p s0 = s0).
  { intros s0 H. unfold send_message. fold x.
    rewrite (put_nowait_pending x _ H). apply set_publish_queue_same. }
  split; [|split; [|split; [|split]]].
  - apply run_others_NoDup. constructor.
  - intros H. rewrite send_message_queue. fold x. split.
    + apply put_nowait_NoDup. exact H.
    + apply NoDup_one_instance.
      * apply put_nowait_NoDup. exact H.
      * apply put_nowait_In.
  - apply Hsame.
  - apply Hsame. rewrite send_message_queue. apply put_nowait_In.
  - intros Hp Hw. unfold _handle_publish, while_true.
    change [as_published x] with (map as_published [x]).
    apply handle_publish_drains with (k := S k); cbn [on_this this wakeups].
    + rewrite Hsame by (rewrite send_message_queue; apply put_nowait_In).
      rewrite send_message_queue. fold x.
      unfold UniqueQueue.put_nowait. rewrite Hp. reflexivity.
    + exact Hw.
    + cbn. lia.
    + rewrite Hw. unfold undisturbed. rewrite repeat_length. cbn. lia.
Qed.

Lemma pending_items_unique_witness :
  let send := send_message (fun _ : unit => "{}") "boneio/relay/1" (PStr "ON") in
  published
    (trace_of (_handle_publish
                 (on_this send (on_this send (Sample.client (undisturbed 3))))))
  = [("boneio/relay/1", Some "ON")].
Proof.
  cbv zeta.
  apply (proj2 (proj2 (proj2 (proj2
           (pending_items_unique (fun _ : unit => "{}") "boneio/relay/1"
              (PStr "ON") (this (Sample.client [])) []
              (Sample.client (undisturbed 3)) 2))))).
  - reflexivity.
  - reflexivity.
Defined.

(** *** The loops never run out of turns *)

Lemma iterate_enough body :
  (forall rt a,
      result_of (body rt) = Returns a ->
      (List.length (wakeups (self_of (body rt))) < List.length (wakeups rt))%nat) ->
  forall n m rt,
    (List.length (wakeups rt) < n)%nat ->
    (List.length (wakeups rt) < m)%nat ->
    iterate n body rt = iterate m body rt.
Proof.
  intros Huses. induction n as [|n IH]; intros m rt Hn Hm; [lia|].
  destruct m as [|m]; [lia|]. cbn [iterate]. unfold bind.
  specialize (Huses rt). unfold result_of, self_of in Huses.
  destruct (body rt) as [[o s1] t1]. cbn in Huses.
  destruct o as [a| |]; [|reflexivity|reflexivity].
  specialize (Huses a eq_refl).
  rewrite (IH m s1) by lia. reflexivity.
Qed.

Ltac next_wakeup :=
  cbn; try discriminate; try (intros _; cbn; lia);
  match goal with
  | |- context [match ?ws with [] => _ | _ :: _ => _ end] =>
      is_var ws; destruct ws as [|[? [[]|[]]] ?]; next_wakeup
  end.

Lemma start_client_turn_uses_wakeup manager rt a :
  result_of (start_client_turn manager rt) = Returns a ->
  (List.length (wakeups (self_of (start_client_turn manager rt)))
   < List.length (wakeups rt))%nat.
Proof.
  run_co. destruct (wakeups rt) as [|[m1 [[]|[]]] ws]; next_wakeup.
Qed.

(** More turns than [while_true] allows change nothing: the supervisor
    loop ends suspended or by an exception, never for lack of turns. *)
Lemma start_client_enough manager rt n :
  (List.length (wakeups rt) < n)%nat ->
  iterate n (start_client_turn manager) rt = start_client manager rt.
Proof.
  intros Hn. unfold start_client, while_true.
  apply iterate_enough; [apply start_client_turn_uses_wakeup | exact Hn | lia].
Qed.

Example sleeps_reach_the_cap :
  doubled_sleeps 1 12 = [2; 4; 8; 16; 32; 64; 128; 256; 512; 900; 900; 900].
Proof. reflexivity. Qed.

End MqttFacts.

(** ** More on the Modbus hub *)

Module ModbusMore.
Import Modbus Observe.

Ltac run_hub :=
  unfold read_single_register, read_multiple_registers, async_close,
    _pymodbus_connect, with_lock, the_client, bound_method_truthy, finally,
    try_except, bind, get_self, modify, emit, ret, raise, of_call, result_of,
    self_of, trace_of;
  cbn.

(** X1: the two read methods perform the same bus operation and write the
    same log entries; the single read gives "no reading" exactly when the
    bulk read does, and raises whatever the bulk read raises. *)
Theorem read_methods_same_operations
        (self : Modbus) (unit : option Z) (address count : Z) :
  trace_of (read_single_register unit address count self)
  = trace_of (read_multiple_registers unit address count self) /\
  (result_of (read_multiple_registers unit address count self) = Returns None
   <-> result_of (read_single_register unit address count self) = Returns None) /\
  (forall e,
      result_of (read_multiple_registers unit address count self) = Raises e ->
      result_of (read_single_register unit address count self) = Raises e).
Proof.
  assert (Hclose : forall (P Q : Prop), (P -> Q) -> (Q -> P) -> (P <-> Q))
    by (intros; split; assumption).
  run_hub. destruct (_client self) as [c|]; cbn.
  - destruct (read_input_registers c address (kwargs_of unit count))
      as [resp|e]; cbn.
    + destruct (registers resp) as [regs|]; cbn.
      * destruct (Pymodbus.fromRegisters regs Pymodbus.Big Pymodbus.Big)
          as [d|e]; cbn; [destruct (Pymodbus.decode_32bit_float d); cbn|];
          (split; [reflexivity|]; split; [apply Hclose|];
           intros; congruence).
      * split; [reflexivity|]. split; [apply Hclose|];
          intros; congruence.
    + destruct e; cbn;
        (split; [reflexivity|]; split; [apply Hclose|];
         intros; congruence).
  - split; [reflexivity|]. split; [apply Hclose|];
      intros; congruence.
Qed.

(** X2: neither read method ever calls [connect] on the serial client,
    and each issues at most one register read. *)
Theorem read_methods_never_connect
        (self : Modbus) (unit : option Z) (address count : Z) :
  filter is_connect_event
    (trace_of (read_single_register unit address count self)) = [] /\
  filter is_connect_event
    (trace_of (read_multiple_registers unit address count self)) = [] /\
  (List.length (filter is_read_event
                  (trace_of (read_single_register unit address count self)))
   <= 1)%nat /\
  (List.length (filter is_read_event
                  (trace_of (read_multiple_registers unit address count self)))
   <= 1)%nat.
Proof.
  run_hub. destruct (_client self) as [c|]; cbn; [|repeat split; lia].
  destruct (read_input_registers c address (kwargs_of unit count))
    as [resp|e]; cbn.
  - destruct (registers resp) as [regs|]; cbn; [|repeat split; lia].
    destruct (Pymodbus.fromRegisters regs Pymodbus.Big Pymodbus.Big)
      as [d|e]; cbn; [|repeat split; lia].
    destruct (Pymodbus.decode_32bit_float d); cbn; repeat split; lia.
  - destruct e; cbn; repeat split; lia.
Qed.

(** X3: decoding happens outside the [try] block, so an exception raised
    while the registers are decoded escapes [read_single_register]; the
    bulk read returns the same response untouched. *)
Theorem decoding_errors_escape
        (self : Modbus) (c : BaseModbusClient) (unit : option Z)
        (address count : Z) (resp : ModbusResponse) (regs : list Z)
        (e : exception) :
  _client self = Some c ->
  read_input_registers c address (kwargs_of unit count) = Ok resp ->
  registers resp = Some regs ->
  (Pymodbus.fromRegisters regs Pymodbus.Big Pymodbus.Big = Throw e \/
   exists d,
     Pymodbus.fromRegisters regs Pymodbus.Big Pymodbus.Big = Ok d /\
     Pymodbus.decode_32bit_float d = Throw e) ->
  result_of (read_single_register unit address count self) = Raises e /\
  result_of (read_multiple_registers unit address count self)
  = Returns (Some resp).
Proof.
  intros Hc Hread Hregs Hdecode. run_hub.
  rewrite Hc. cbn. rewrite Hread. cbn. rewrite Hregs. cbn.
  destruct Hdecode as [Hfrom | [d [Hfrom Hdec]]].
  - rewrite Hfrom. split; reflexivity.
  - rewrite Hfrom. cbn. rewrite Hdec. split; reflexivity.
Qed.

Lemma decoding_errors_escape_witness :
  result_of (read_single_register (Some 1) 0 1 Cases.short_hub)
  = Raises StructError /\
  result_of (read_multiple_registers (Some 1) 0 1 Cases.short_hub)
  = Returns (Some Cases.short_reading).
Proof.
  apply (decoding_errors_escape Cases.short_hub Cases.short_client (Some 1) 0 1
           Cases.short_reading [16456] StructError).
  - reflexivity.
  - reflexivity.
  - reflexivity.
  - right. eexists. split; reflexivity.
Defined.

(** X4: the bulk read hands back the response object itself whenever it
    has registers, whatever their number; when the call raises a
    [ModbusException] or the response lacks registers it gives "no
    reading" and logs exactly one error. *)
Theorem read_multiple_registers_result
        (self : Modbus) (c : BaseModbusClient) (unit : option Z)
        (address count : Z) :
  _client self = Some c ->
  let r := read_multiple_registers unit address count self in
  (forall resp regs,
      read_input_registers c address (kwargs_of unit count) = Ok resp ->
      registers resp = Some regs ->
      result_of r = Returns (Some resp) /\ logged_errors (trace_of r) = []) /\
  (forall resp,
      read_input_registers c address (kwargs_of unit count) = Ok resp ->
      registers resp = None ->
      result_of r = Returns None /\ logged_errors (trace_of r) = [str resp]) /\
  (read_input_registers c address (kwargs_of unit count) = Throw ModbusException ->
   result_of r = Returns None /\
   logged_errors (trace_of r) = ["ModbusException"]).
Proof.
  intros Hc. cbv zeta. run_hub. rewrite Hc. cbn. split; [|split].
  - intros resp regs Hresp Hregs. rewrite Hresp. cbn. rewrite Hregs.
    split; reflexivity.
  - intros resp Hresp Hregs. rewrite Hresp. cbn. rewrite Hregs.
    split; reflexivity.
  - intros Hthrow. rewrite Hthrow. split; reflexivity.
Qed.

Lemma read_multiple_registers_result_witness :
  result_of (read_multiple_registers (Some 1) 0 1 Cases.short_hub)
  = Returns (Some Cases.short_reading) /\
  logged_errors (trace_of (read_multiple_registers (Some 1) 0 1 Cases.short_hub))
  = [].
Proof.
  exact (proj1 (read_multiple_registers_result
                  Cases.short_hub Cases.short_client (Some 1) 0 1 eq_refl)
               Cases.short_reading [16456] eq_refl eq_refl).
Defined.

(** X5: only [ModbusException] is turned into "no reading": any other
    exception of the client's read escapes both read methods, and nothing
    is logged. *)
Theorem other_exceptions_escape
        (self : Modbus) (c : BaseModbusClient) (unit : option Z)
        (address count : Z) (e : exception) :
  _client self = Some c ->
  read_input_registers c address (kwargs_of unit count) = Throw e ->
  e <> ModbusException ->
  result_of (read_single_register unit address count self) = Raises e /\
  result_of (read_multiple_registers unit address count self) = Raises e /\
  logged_errors (trace_of (read_single_register unit address count self)) = [] /\
  logged_errors (trace_of (read_multiple_registers unit address count self)) = [].
Proof.
  intros Hc Hthrow He. run_hub. rewrite Hc. cbn. rewrite Hthrow.
  destruct e; cbn; try congruence; repeat split.
Qed.

Lemma other_exceptions_escape_witness :
  result_of (read_single_register (Some 1) 0 2 Cases.faulty_hub)
  = Raises AttributeError /\
  result_of (read_multiple_registers (Some 1) 0 2 Cases.faulty_hub)
  = Raises AttributeError.
Proof.
  pose proof (other_exceptions_escape Cases.faulty_hub Cases.faulty_client
                (Some 1) 0 2 AttributeError eq_refl eq_refl) as H.
  destruct H as (H1 & H2 & _); [discriminate|]. split; assumption.
Defined.

(** X6: with a truthy [unit] both read methods pass the unit and the
    caller's count as keywords, so the caller's count is the one the
    client works with. *)
Theorem truthy_unit_passes_keywords
        (self : Modbus) (c : BaseModbusClient) (u address count : Z) :
  u <> 0 ->
  _client self = Some c ->
  kwargs_of (Some u) count = [("unit", Some u); ("count", Some count)] /\
  filter is_read_event
    (trace_of (read_single_register (Some u) address count self))
  = [ClientReadInputRegisters address [("unit", Some u); ("count", Some count)]] /\
  filter is_read_event
    (trace_of (read_multiple_registers (Some u) address count self))
  = [ClientReadInputRegisters address [("unit", Some u); ("count", Some count)]] /\
  (forall default,
      count_argument default (kwargs_of (Some u) count) = Some count).
Proof.
  intros Hu Hc.
  assert (Hk : kwargs_of (Some u) count = [("unit", Some u); ("count", Some count)]).
  { unfold kwargs_of, optional_int_truthy, int_truthy.
    destruct (Z.eqb_spec u 0); [contradiction|reflexivity]. }
  split; [exact Hk|]. split; [|split].
  - run_hub. rewrite Hc, Hk. cbn.
    destruct (read_input_registers c address _) as [resp|e]; cbn.
    + destruct (registers resp) as [regs|]; cbn; [|reflexivity].
      destruct (Pymodbus.fromRegisters regs Pymodbus.Big Pymodbus.Big)
        as [d|e]; cbn; [|reflexivity].
      destruct (Pymodbus.decode_32bit_float d); reflexivity.
    + destruct e; reflexivity.
  - run_hub. rewrite Hc, Hk. cbn.
    destruct (read_input_registers c address _) as [resp|e]; cbn.
    + destruct (registers resp); reflexivity.
    + destruct e; reflexivity.
  - intros d. rewrite Hk. reflexivity.
Qed.

Lemma truthy_unit_passes_keywords_witness :
  filter is_read_event
    (trace_of (read_single_register (Some 3) 7 4 Sample.hub))
  = [ClientReadInputRegisters 7 [("unit", Some 3); ("count", Some 4)]].
Proof.
  refine (proj1 (proj2 (truthy_unit_passes_keywords
                          Sample.hub Sample.serial_client 3 7 4 _ eq_refl))).
  discriminate.
Defined.

(** X7: [_pymodbus_connect] answers [True] whenever the client's
    [connect] returns, also when it returns [False]; it answers [False]
    only for a [ModbusException], lets any other exception escape, raises
    [AttributeError] without a client handle, and never changes the hub. *)
Theorem pymodbus_connect_result (self : Modbus) :
  self_of (_pymodbus_connect self) = self /\
  match _client self with
  | None => result_of (_pymodbus_connect self) = Raises AttributeError
  | Some c =>
      match connect c with
      | Ok _ =>
          result_of (_pymodbus_connect self) = Returns true /\
          trace_of (_pymodbus_connect self)
          = [ClientConnect; LogInfo "modbus communication open"]
      | Throw e =>
          result_of (_pymodbus_connect self)
          = (if is_ModbusException e then Returns false else Raises e) /\
          logged_errors (trace_of (_pymodbus_connect self))
          = (if is_ModbusException e then ["ModbusException"] else [])
      end
  end.
Proof.
  run_hub. destruct (_client self) as [c|]; cbn; [|split; reflexivity].
  destruct (connect c) as [b|e]; cbn; [repeat split|].
  destruct e; cbn; repeat split.
Qed.

(** X8: when the constructor of the serial client raises a
    [ModbusException], [__init__] still returns: both pins are configured,
    the error is logged and the hub is left without a client; on such a hub
    every read raises [AttributeError] and [async_close] does nothing but
    take and release the lock. *)
Theorem init_without_client (uart : Uart) (unit : option Z) (address count : Z) :
  let made := __init__ uart (Throw ModbusException) in
  result_of made = Returns tt /\
  trace_of made
  = [ConfigurePin (RX uart); ConfigurePin (TX uart); LogError "ModbusException"] /\
  _client (self_of made) = None /\
  _lock (self_of made) = false /\
  result_of (read_single_register unit address count (self_of made))
  = Raises AttributeError /\
  result_of (read_multiple_registers unit address count (self_of made))
  = Raises AttributeError /\
  async_close (self_of made)
  = (Returns tt, self_of made, [LockAcquire; LockRelease]).
Proof. cbv zeta. repeat split. Qed.

(** X9: [async_close] never leaves the lock held: when [close] raises an
    exception other than [ModbusException], the exception escapes and the
    client handle stays in place, but the lock has been released. *)
Theorem async_close_releases_lock (self : Modbus) :
  _lock self = false ->
  _lock (self_of (async_close self)) = false /\
  last (trace_of (async_close self)) LockAcquire = LockRelease /\
  result_of (async_close self) <> Suspended /\
  (forall c e,
      _client self = Some c -> close c = Throw e -> e <> ModbusException ->
      result_of (async_close self) = Raises e /\
      _client (self_of (async_close self)) = Some c).
Proof.
  intros Hl. run_hub. rewrite Hl. cbn.
  destruct (_client self) as [c|] eqn:Hc; cbn.
  - destruct (close c) as [[]|e] eqn:Hclose; cbn.
    + split; [reflexivity|]. split; [reflexivity|]. split; [discriminate|].
      intros c' e' Hc' He' _. injection Hc' as <-. rewrite Hclose in He'.
      discriminate He'.
    + destruct e; cbn;
        (split; [reflexivity|]; split; [reflexivity|]; split; [discriminate|];
         intros c' e' Hc' He' Hne;
         injection Hc' as <-; rewrite Hclose in He'; injection He' as <-;
         first [exfalso; apply Hne; reflexivity
               | split; [reflexivity | exact Hc]]).
  - split; [reflexivity|]. split; [reflexivity|]. split; [discriminate|].
    intros c e Hc'. discriminate Hc'.
Qed.

Lemma async_close_releases_lock_witness :
  _lock (self_of (async_close Cases.faulty_hub)) = false /\
  result_of (async_close Cases.faulty_hub) = Raises AttributeError /\
  _client (self_of (async_close Cases.faulty_hub)) = Some Cases.faulty_client.
Proof.
  pose proof (async_close_releases_lock Cases.faulty_hub eq_refl)
    as (H1 & _ & _ & H4).
  split; [exact H1|].
  apply (H4 Cases.faulty_client AttributeError eq_refl eq_refl).
  discriminate.
Defined.

End ModbusMore.

(** ** More on the connection supervisor *)

Module MqttMore.
Import MqttClient Observe MqttFacts.

Ltac each_wakeup :=
  cbn; try discriminate; try (intros; repeat split; congruence);
  match goal with
  | |- context [match ?ws with [] => _ | _ :: _ => _ end] =>
      is_var ws; destruct ws as [|[? [[]|[]]] ?]; each_wakeup
  end.

(** A session neither replaces the client object nor sleeps; it stores
    the interval at most once, as 1. *)
Lemma session_quiet manager rt :
  asyncio_client (this (self_of (_subscribe_manager manager rt)))
  = asyncio_client (this rt) /\
  created (self_of (_subscribe_manager manager rt)) = created rt /\
  sleeps (trace_of (_subscribe_manager manager rt)) = [] /\
  clients_created (trace_of (_subscribe_manager manager rt)) = [] /\
  (stored_intervals (trace_of (_subscribe_manager manager rt)) = [] \/
   stored_intervals (trace_of (_subscribe_manager manager rt)) = [1]).
Proof.
  run_co. destruct (wakeups rt) as [|[m1 [[]|e1]] ws]; cbn; auto 10.
  destruct ws as [|[m2 [[]|e2]] ws]; cbn; auto 10.
  destruct ws as [|[m3 [[]|e3]] ws]; cbn; auto 10.
  destruct ws as [|[m4 [[]|e4]] ws]; cbn; auto 10.
Qed.

Lemma start_client_first_turn manager rt :
  start_client manager rt
  = (start_client_turn manager ;;
     iterate (List.length (wakeups rt)) (start_client_turn manager)) rt.
Proof. reflexivity. Qed.

(** X10: the supervisor retries on [MqttError] only: when a session ends
    with any other exception, [start_client] ends with that exception at
    once, without a sleep, without a new client object and without
    touching the interval any further. *)
Theorem only_mqtt_errors_are_retried
        (manager : Manager) (rt : runtime) (e : exception) :
  result_of (_subscribe_manager manager rt) = Raises e ->
  e <> MqttError ->
  start_client manager rt = _subscribe_manager manager rt /\
  sleeps (trace_of (start_client manager rt)) = [] /\
  clients_created (trace_of (start_client manager rt)) = [].
Proof.
  intros Hr He.
  assert (Heq : start_client manager rt = _subscribe_manager manager rt).
  { rewrite start_client_first_turn. unfold bind, start_client_turn, try_except.
    unfold result_of in Hr.
    destruct (_subscribe_manager manager rt) as [[o s1] t1]. cbn in Hr. subst o.
    destruct e; cbn; congruence. }
  rewrite Heq.
  destruct (session_quiet manager rt) as (_ & _ & H3 & H4 & _).
  repeat split; assumption.
Qed.

Lemma only_mqtt_errors_are_retried_witness :
  let cancelled := {| meanwhile := []; resumed := Throw CancelledError |} in
  result_of (start_client Sample.manager
               (Sample.client [Sample.completes; cancelled; Sample.completes]))
  = Raises CancelledError /\
  sleeps (trace_of (start_client Sample.manager
                      (Sample.client [Sample.completes; cancelled;
                                      Sample.completes]))) = [].
Proof.
  cbv zeta.
  pose proof (only_mqtt_errors_are_retried
                Sample.manager
                (Sample.client
                   [Sample.completes;
                    {| meanwhile := []; resumed := Throw CancelledError |};
                    Sample.completes])
                CancelledError eq_refl) as H.
  destruct H as (H1 & H2 & _); [discriminate|].
  split; [rewrite H1; reflexivity | exact H2].
Defined.

(** X11: an exception that interrupts the back-off sleep ends
    [start_client]: the interval has been doubled already, but no new
    client object is made and the old one stays in place. *)
Theorem interrupted_sleep_ends_supervisor
        (manager : Manager) (rt : runtime) (w : wakeup) (rest : list wakeup)
        (e : exception) :
  let session := _subscribe_manager manager rt in
  result_of session = Raises MqttError ->
  wakeups (self_of session) = w :: rest ->
  resumed w = Throw e ->
  let r := start_client manager rt in
  result_of r = Raises e /\
  asyncio_client (this (self_of r)) = asyncio_client (this rt) /\
  clients_created (trace_of r) = [] /\
  reconnect_interval (this (self_of r))
  = Z.min (reconnect_interval (this (self_of session)) * 2) 900 /\
  sleeps (trace_of r) = [reconnect_interval (this (self_of r))].
Proof.
  cbv zeta. intros Hr Hw He.
  destruct (session_quiet manager rt) as (Hc & _ & Hs & Hn & _).
  rewrite start_client_first_turn. unfold bind, start_client_turn, try_except.
  unfold result_of, self_of, trace_of in *.
  destruct (_subscribe_manager manager rt) as [[o s1] t1].
  cbn [fst snd] in *. subst o.
  cbv beta iota delta [is_MqttError exception_eqb].
  rewrite reconnect_run. cbv zeta. rewrite Hw, He. cbn [fst snd].
  unfold clients_created in *. rewrite sleeps_app, flat_map_app, Hs, Hn.
  cbn. repeat split; assumption.
Qed.

Lemma interrupted_sleep_ends_supervisor_witness :
  let cancelled := {| meanwhile := []; resumed := Throw CancelledError |} in
  let r := start_client Sample.manager (Sample.client [Sample.fails; cancelled]) in
  result_of r = Raises CancelledError /\
  asyncio_client (this (self_of r)) = 0%nat /\
  sleeps (trace_of r) = [2].
Proof.
  cbv zeta.
  pose proof (interrupted_sleep_ends_supervisor
                Sample.manager
                (Sample.client
                   [Sample.fails;
                    {| meanwhile := []; resumed := Throw CancelledError |}])
                {| meanwhile := []; resumed := Throw CancelledError |} []
                CancelledError eq_refl eq_refl eq_refl) as H.
  cbv zeta in H. destruct H as (H1 & H2 & _ & H4 & H5).
  split; [exact H1|]. split; [exact H2|]. exact H5.
Defined.

(** Once the connection has been entered the interval is 1, whatever
    happens to the session afterwards. *)
Lemma session_connected manager rt w rest :
  wakeups rt = w :: rest -> resumed w = Ok tt ->
  reconnect_interval (this (self_of (_subscribe_manager manager rt))) = 1 /\
  stored_intervals (trace_of (_subscribe_manager manager rt)) = [1].
Proof.
  intros Hw Hr. run_co. rewrite Hw. cbn. rewrite Hr. cbn.
  destruct rest as [|[m2 [[]|e2]] ws]; cbn; auto.
  destruct ws as [|[m3 [[]|e3]] ws]; cbn; auto.
  destruct ws as [|[m4 [[]|e4]] ws]; cbn; auto.
Qed.

Lemma turn_connect_fails_ids manager rt a b rest :
  wakeups rt = failed_attempt a b ++ rest ->
  exists rt' t,
    start_client_turn manager rt = (Returns tt, rt', t) /\
    connects t = [asyncio_client (this rt)] /\
    clients_created t = [created rt] /\
    wakeups rt' = rest /\
    asyncio_client (this rt') = created rt /\
    created rt' = S (created rt).
Proof.
  intros Hw. unfold start_client_turn, try_except.
  rewrite (subscribe_manager_connect_fails manager rt _ _ MqttError Hw eq_refl).
  cbv beta iota delta [is_MqttError exception_eqb].
  rewrite reconnect_run. cbn. eexists. eexists. split; [reflexivity|].
  repeat split.
Qed.

Lemma connects_app t1 t2 : connects (t1 ++ t2) = connects t1 ++ connects t2.
Proof. unfold connects. apply flat_map_app. Qed.

Lemma outage_connects manager activity :
  forall rt n,
    wakeups rt = outage activity ->
    (List.length activity < n)%nat ->
    connects (trace_of (iterate n (start_client_turn manager) rt))
    = asyncio_client (this rt) :: seq (created rt) (List.length activity).
Proof.
  induction activity as [|[a b] activity IH]; intros rt n Hw Hn.
  - destruct n as [|n]; [lia|]. cbn [iterate].
    unfold bind, start_client_turn. run_co. rewrite Hw. reflexivity.
  - destruct n as [|n]; [cbn in Hn; lia|]. cbn [iterate].
    destruct (turn_connect_fails_ids manager rt a b (outage activity) Hw)
      as (rt' & t & Hturn & Ht & _ & Hw' & Hc & Hm).
    unfold bind. rewrite Hturn.
    specialize (IH rt' n Hw' ltac:(cbn in Hn; lia)).
    unfold trace_of in *.
    destruct (iterate n (start_client_turn manager) rt') as [[o s2] t2].
    cbn [snd] in *. rewrite connects_app, Ht, IH, Hc, Hm. reflexivity.
Qed.

(** X13: every retry after a failed connection attempt uses a client
    object made for it: along an outage the attempts run on the initial
    client and then on one new object per failure, no object twice. *)
Theorem retries_use_new_clients
        (manager : Manager) (rt : runtime)
        (activity : list (list other * list other)) :
  wakeups rt = outage activity ->
  (asyncio_client (this rt) < created rt)%nat ->
  connects (trace_of (start_client manager rt))
  = asyncio_client (this rt) :: seq (created rt) (List.length activity) /\
  NoDup (connects (trace_of (start_client manager rt))).
Proof.
  intros Hw Hlt.
  assert (H : connects (trace_of (start_client manager rt))
              = asyncio_client (this rt) :: seq (created rt) (List.length activity)).
  { unfold start_client, while_true.
    apply outage_connects; [exact Hw|]. rewrite Hw, outage_length. lia. }
  split; [exact H|]. rewrite H. constructor.
  - rewrite in_seq. lia.
  - apply seq_NoDup.
Qed.

Lemma retries_use_new_clients_witness :
  connects (trace_of (start_client Sample.manager
                        (Sample.client (outage [([], []); ([], []); ([], [])]))))
  = [0; 1; 2; 3]%nat.
Proof.
  refine (proj1 (retries_use_new_clients
                   Sample.manager
                   (Sample.client (outage [([], []); ([], []); ([], [])]))
                   [([], []); ([], []); ([], [])] eq_refl _)).
  cbn. lia.
Defined.

(** X14: the back-off reaches its cap within ten consecutive failures:
    from any interval in 1..900, the tenth and every later sleep of an
    outage lasts 900 seconds. *)
Theorem backoff_reaches_cap
        (manager : Manager) (rt : runtime)
        (activity : list (list other * list other)) (k : nat) :
  wakeups rt = outage activity ->
  interval_in_range (reconnect_interval (this rt)) ->
  (9 <= k < List.length activity)%nat ->
  nth_error (sleeps (trace_of (start_client manager rt))) k = Some 900.
Proof.
  intros Hw Hi Hk. unfold start_client, while_true.
  rewrite (outage_sleeps manager activity rt _ Hw)
    by (rewrite Hw, outage_length; lia).
  unfold doubled_sleeps. rewrite nth_error_map, nth_error_seq.
  destruct (Nat.ltb_spec k (List.length activity)) as [_|]; [|lia].
  cbn [option_map]. f_equal. apply Z.min_r.
  unfold interval_in_range in Hi.
  assert (H : 2 ^ 10 <= 2 ^ Z.of_nat (1 + k))
    by (apply Z.pow_le_mono_r; lia).
  change (2 ^ 10) with 1024 in H. nia.
Qed.

Lemma backoff_reaches_cap_witness :
  nth_error
    (sleeps (trace_of (start_client Sample.manager
                         (Sample.client (outage (repeat ([], []) 11))))))
    9 = Some 900.
Proof.
  apply (backoff_reaches_cap Sample.manager
           (Sample.client (outage (repeat ([], []) 11)))
           (repeat ([], []) 11) 9 eq_refl).
  - unfold interval_in_range. cbn. lia.
  - cbn. lia.
Defined.

(** X15: a failure after the connection was entered is retried after two
    seconds, whatever the interval was before: the session stored 1 and
    the retry path doubles it. *)
Theorem failure_after_connect_sleeps_two
        (manager : Manager) (rt : runtime) (w : wakeup) (rest : list wakeup) :
  wakeups rt = w :: rest ->
  resumed w = Ok tt ->
  result_of (_subscribe_manager manager rt) = Raises MqttError ->
  sleeps (trace_of (start_client_turn manager rt)) = [2] /\
  stored_intervals (trace_of (start_client_turn manager rt)) = [1; 2].
Proof.
  intros Hw Hok Hr.
  destruct (session_connected manager rt w rest Hw Hok) as [Hi Hst].
  destruct (session_quiet manager rt) as (_ & _ & Hs & _).
  unfold start_client_turn, try_except.
  unfold result_of, self_of, trace_of in *.
  destruct (_subscribe_manager manager rt) as [[o s1] t1].
  cbn [fst snd] in *. subst o.
  cbv beta iota delta [is_MqttError exception_eqb].
  rewrite reconnect_run. cbv zeta. rewrite Hi.
  unfold stored_intervals in *.
  destruct (wakeups s1) as [|w' ws']; [|destruct (resumed w')];
    cbn [fst snd]; rewrite sleeps_app, flat_map_app, Hs, Hst;
    split; reflexivity.
Qed.

Lemma failure_after_connect_sleeps_two_witness :
  let rt := on_this (set_reconnect_interval 256)
                    (Sample.client [Sample.completes; Sample.completes;
                                    Sample.completes; Sample.fails]) in
  sleeps (trace_of (start_client_turn Sample.manager rt)) = [2].
Proof.
  cbv zeta.
  exact (proj1 (failure_after_connect_sleeps_two
                  Sample.manager
                  (on_this (set_reconnect_interval 256)
                           (Sample.client [Sample.completes; Sample.completes;
                                           Sample.completes; Sample.fails]))
                  Sample.completes
                  [Sample.completes; Sample.completes; Sample.fails]
                  eq_refl eq_refl eq_refl)).
Defined.

(** X22: a session issues at most one subscription, and a session that
    got as far as waiting for its tasks has issued exactly one: to the
    manager's relay topic, on the current client, with [qos=0] and a
    timeout of 10 seconds. *)
Theorem one_subscription_per_session (manager : Manager) (rt : runtime) :
  let t := trace_of (_subscribe_manager manager rt) in
  (List.length (filter is_subscribe t) <= 1)%nat /\
  (index_of is_gather t <> None ->
   filter is_subscribe t
   = [Subscribe (asyncio_client (this rt)) (relay_topic manager) 0 10]).
Proof.
  cbv zeta. run_co.
  destruct (wakeups rt) as [|[m1 [[]|e1]] ws]; cbn;
    try (split; [lia | intros H; exfalso; apply H; reflexivity]).
  destruct ws as [|[m2 [[]|e2]] ws]; cbn;
    try (split; [lia | intros H; exfalso; apply H; reflexivity]).
  destruct ws as [|[m3 [[]|e3]] ws]; cbn;
    try (split; [lia | intros H; exfalso; apply H; reflexivity]).
  destruct ws as [|[m4 [[]|e4]] ws]; cbn; (split; [lia | reflexivity]).
Qed.

Lemma one_subscription_per_session_witness :
  filter is_subscribe
    (trace_of (_subscribe_manager Sample.manager
                 (Sample.client [Sample.completes; Sample.completes;
                                 Sample.completes])))
  = [Subscribe 0 "boneio/relay/+/set" 0 10].
Proof.
  refine (proj2 (one_subscription_per_session
                   Sample.manager
                   (Sample.client [Sample.completes; Sample.completes;
                                   Sample.completes])) _).
  discriminate.
Defined.

(** *** The publish task *)

Lemma handle_publish_first_turn rt :
  _handle_publish rt
  = (handle_publish_turn ;;
     iterate (List.length (wakeups rt)) handle_publish_turn) rt.
Proof. reflexivity. Qed.

Lemma handle_publish_turn_fails rt x rest w ws e :
  UniqueQueue.pending (publish_queue (this rt)) = x :: rest ->
  wakeups rt = w :: ws ->
  resumed w = Throw e ->
  handle_publish_turn rt
  = (Raises e,
     wake w ws
          (on_this (set_publish_queue
                      {| UniqueQueue.pending := rest;
                         UniqueQueue.acked :=
                           UniqueQueue.acked (publish_queue (this rt)) |})
                   rt),
     [Publish (asyncio_client (this rt)) (fst x)
              (if str_truthy (snd x) then Some (snd x) else None) 0 false 10]).
Proof.
  intros Hp Hw He. unfold handle_publish_turn.
  unfold bind at 1. unfold get_self at 1. unfold bind at 1.
  rewrite (queue_get_ready _ rt x rest Hp).
  unfold publish, await, bind, get_self, emit. cbn. rewrite Hw. cbn.
  rewrite He. reflexivity.
Qed.

(** X17: when publishing fails, the message in flight is lost: it was
    taken from the queue before the attempt, it is not put back and not
    acknowledged, and the exception ends the publish task. *)
Theorem publish_failure_drops_item
        (rt : runtime) (x : UniqueQueue.item) (rest : list UniqueQueue.item)
        (w : wakeup) (ws : list wakeup) (e : exception) :
  UniqueQueue.pending (publish_queue (this rt)) = x :: rest ->
  wakeups rt = w :: ws ->
  resumed w = Throw e ->
  let r := _handle_publish rt in
  result_of r = Raises e /\
  published (trace_of r) = [as_published x] /\
  publish_queue (this (self_of r))
  = run_others (meanwhile w)
      {| UniqueQueue.pending := rest;
         UniqueQueue.acked := UniqueQueue.acked (publish_queue (this rt)) |} /\
  (meanwhile w = [] ->
   UniqueQueue.pending (publish_queue (this (self_of r))) = rest /\
   UniqueQueue.acked (publish_queue (this (self_of r)))
   = UniqueQueue.acked (publish_queue (this rt))).
Proof.
  intros Hp Hw He. cbv zeta. rewrite handle_publish_first_turn. unfold bind.
  rewrite (handle_publish_turn_fails rt x rest w ws e Hp Hw He). cbn.
  split; [reflexivity|]. split; [reflexivity|]. split; [reflexivity|].
  intros Hm. rewrite Hm. split; reflexivity.
Qed.

Lemma publish_failure_drops_item_witness :
  let send := send_message (fun _ : unit => "{}") in
  let rt := on_this (send "boneio/relay/2" (PStr "OFF"))
                    (on_this (send "boneio/relay/1" (PStr "ON"))
                             (Sample.client [Sample.fails])) in
  result_of (_handle_publish rt) = Raises MqttError /\
  UniqueQueue.pending (publish_queue (this (self_of (_handle_publish rt))))
  = [("boneio/relay/2", "OFF")].
Proof.
  cbv zeta.
  pose proof (publish_failure_drops_item
                (on_this (send_message (fun _ : unit => "{}")
                                       "boneio/relay/2" (PStr "OFF"))
                         (on_this (send_message (fun _ : unit => "{}")
                                                "boneio/relay/1" (PStr "ON"))
                                  (Sample.client [Sample.fails])))
                ("boneio/relay/1", "ON") [("boneio/relay/2", "OFF")]
                Sample.fails [] MqttError eq_refl eq_refl eq_refl) as H.
  cbv zeta in H. destruct H as (H1 & _ & _ & H4).
  split; [exact H1 | exact (proj1 (H4 eq_refl))].
Defined.

Lemma queue_get_idle_state k :
  forall rt,
    UniqueQueue.pending (publish_queue (this rt)) = [] ->
    wakeups rt = undisturbed k ->
    publish_queue (this (self_of (queue_get k rt))) = publish_queue (this rt).
Proof.
  induction k as [|k IH]; intros rt Hp Hw.
  - cbn [queue_get]. unfold bind, get_self, UniqueQueue.get_nowait. cbn.
    rewrite Hp. reflexivity.
  - cbn [queue_get].
    unfold await, bind, get_self, emit, suspend, self_of,
      UniqueQueue.get_nowait. cbn.
    rewrite Hp. cbn. rewrite Hw. cbn.
    specialize (IH (wake {| meanwhile := []; resumed := Ok tt |}
                         (undisturbed k) rt)).
    cbn in IH. specialize (IH Hp eq_refl). unfold self_of in IH.
    destruct (queue_get k _) as [[o s2] t2]. cbn in *.
    rewrite IH. destruct (publish_queue (this rt)); reflexivity.
Qed.

Lemma handle_publish_turn_idle_state rt k :
  UniqueQueue.pending (publish_queue (this rt)) = [] ->
  wakeups rt = undisturbed k ->
  publish_queue (this (self_of (handle_publish_turn rt)))
  = publish_queue (this rt).
Proof.
  intros Hp Hw.
  destruct (queue_get_idle k rt Hp Hw) as [Hr _].
  pose proof (queue_get_idle_state k rt Hp Hw) as Hq.
  unfold handle_publish_turn, bind, get_self. cbv beta iota zeta.
  replace (List.length (wakeups rt)) with k
    by (rewrite Hw; unfold undisturbed; rewrite repeat_length; reflexivity).
  unfold result_of, self_of in *.
  destruct (queue_get k rt) as [[o s2] t2]. cbn in *. subst o. exact Hq.
Qed.

Lemma handle_publish_turn_acks rt x rest k :
  UniqueQueue.pending (publish_queue (this rt)) = x :: rest ->
  wakeups rt = undisturbed (S k) ->
  exists rt',
    handle_publish_turn rt
    = (Returns tt, rt',
       [Publish (asyncio_client (this rt)) (fst x)
                (if str_truthy (snd x) then Some (snd x) else None)
                0 false 10]) /\
    UniqueQueue.pending (publish_queue (this rt')) = rest /\
    UniqueQueue.acked (publish_queue (this rt'))
    = S (UniqueQueue.acked (publish_queue (this rt))) /\
    wakeups rt' = undisturbed k.
Proof.
  intros Hp Hw. unfold handle_publish_turn.
  unfold bind at 1. unfold get_self at 1. unfold bind at 1.
  rewrite (queue_get_ready _ rt x rest Hp).
  unfold publish, await, bind, get_self, modify, emit. cbn. rewrite Hw. cbn.
  eexists. split; [reflexivity|]. repeat split.
Qed.

Lemma handle_publish_drains_state items :
  forall rt n k,
    UniqueQueue.pending (publish_queue (this rt)) = items ->
    wakeups rt = undisturbed k ->
    (List.length items <= k)%nat ->
    (List.length items < n)%nat ->
    let r := iterate n handle_publish_turn rt in
    result_of r = Suspended /\
    UniqueQueue.pending (publish_queue (this (self_of r))) = [] /\
    UniqueQueue.acked (publish_queue (this (self_of r)))
    = (UniqueQueue.acked (publish_queue (this rt)) + List.length items)%nat.
Proof.
  induction items as [|x items IH]; intros rt n k Hp Hw Hk Hn; cbv zeta.
  - destruct n as [|n]; [lia|]. cbn [iterate]. unfold bind.
    destruct (handle_publish_turn_idle rt k Hp Hw) as [Hr _].
    pose proof (handle_publish_turn_idle_state rt k Hp Hw) as Hq.
    unfold result_of, self_of in *.
    destruct (handle_publish_turn rt) as [[o s2] t2]. cbn in *. subst o.
    cbn. rewrite Hq, Hp. repeat split. lia.
  - destruct n as [|n]; [cbn in Hn; lia|].
    destruct k as [|k]; [cbn in Hk; lia|]. cbn [iterate]. unfold bind.
    destruct (handle_publish_turn_acks rt x items k Hp Hw)
      as (rt' & Hturn & Hp' & Ha' & Hw').
    rewrite Hturn.
    specialize (IH rt' n k Hp' Hw' ltac:(cbn in Hk; lia) ltac:(cbn in Hn; lia)).
    cbv zeta in IH. unfold result_of, self_of in *.
    destruct (iterate n handle_publish_turn rt') as [[o s2] t2].
    cbn in *. destruct IH as (H1 & H2 & H3).
    repeat split; [exact H1 | exact H2 | rewrite H3, Ha'; lia].
Qed.

(** X18: left alone with enough completions, the publish task hands the
    pending items to the broker client in queue order, each once,
    acknowledges each, leaves the queue empty and then waits for more. *)
Theorem handle_publish_drains_in_order (rt : runtime) (k : nat) :
  wakeups rt = undisturbed k ->
  (List.length (UniqueQueue.pending (publish_queue (this rt))) <= k)%nat ->
  let r := _handle_publish rt in
  result_of r = Suspended /\
  published (trace_of r)
  = map as_published (UniqueQueue.pending (publish_queue (this rt))) /\
  UniqueQueue.pending (publish_queue (this (self_of r))) = [] /\
  UniqueQueue.acked (publish_queue (this (self_of r)))
  = (UniqueQueue.acked (publish_queue (this rt))
     + List.length (UniqueQueue.pending (publish_queue (this rt))))%nat.
Proof.
  intros Hw Hk. cbv zeta. unfold _handle_publish, while_true.
  assert (Hn : (List.length (UniqueQueue.pending (publish_queue (this rt)))
                < S (List.length (wakeups rt)))%nat)
    by (rewrite Hw; unfold undisturbed; rewrite repeat_length; lia).
  destruct (handle_publish_drains_state _ rt _ k eq_refl Hw Hk Hn)
    as (H1 & H2 & H3).
  split; [exact H1|]. split; [|split; assumption].
  apply (handle_publish_drains _ rt _ k eq_refl Hw Hk Hn).
Qed.

Lemma handle_publish_drains_in_order_witness :
  let send := send_message (fun _ : unit => "{}") in
  let rt := on_this (send "boneio/relay/2" (PStr "OFF"))
                    (on_this (send "boneio/relay/1" (PStr "ON"))
                             (Sample.client (undisturbed 2))) in
  published (trace_of (_handle_publish rt))
  = [("boneio/relay/1", Some "ON"); ("boneio/relay/2", Some "OFF")].
Proof.
  cbv zeta.
  refine (proj1 (proj2 (handle_publish_drains_in_order
            (on_this (send_message (fun _ : unit => "{}")
                                   "boneio/relay/2" (PStr "OFF"))
                     (on_this (send_message (fun _ : unit => "{}")
                                            "boneio/relay/1" (PStr "ON"))
                              (Sample.client (undisturbed 2))))
            2 eq_refl _))).
  cbn. lia.
Defined.

End MqttMore.

(** ** Inbound messages *)

Module MessagesFacts.
Import HandleMessages.

Section Dispatch.
Variable decode : list Byte.byte -> call string.
Variable callback : string -> string -> call unit.

Lemma callbacks_app t1 t2 : callbacks (t1 ++ t2) = callbacks t1 ++ callbacks t2.
Proof. unfold callbacks. apply flat_map_app. Qed.

Lemma handle_one m rest :
  handled decode callback m ->
  handle_messages decode (Ok m :: rest) callback tt
  = (let '(o, s, t) := handle_messages decode rest callback tt in
     (o, s,
      [Debug (fst (delivered decode m)) (snd (delivered decode m));
       Callback (fst (delivered decode m)) (snd (delivered decode m))] ++ t)).
Proof.
  intros [s [Hd Hc]]. cbn [handle_messages].
  unfold delivered, bind, of_call, emit, ret. cbn. rewrite Hd. cbn.
  rewrite Hc. cbn.
  destruct (handle_messages decode rest callback tt) as [[o u] t].
  reflexivity.
Qed.

Lemma handle_prefix good :
  forall rest,
    Forall (handled decode callback) good ->
    result_of (handle_messages decode (map Ok good ++ rest) callback tt)
    = result_of (handle_messages decode rest callback tt) /\
    callbacks (trace_of (handle_messages decode (map Ok good ++ rest) callback tt))
    = map (delivered decode) good
          ++ callbacks (trace_of (handle_messages decode rest callback tt)).
Proof.
  induction good as [|m good IH]; intros rest Hall; [split; reflexivity|].
  inversion Hall as [|? ? Hm Hgood]; subst.
  cbn [map app]. rewrite (handle_one m _ Hm).
  destruct (IH rest Hgood) as [Hr Ht].
  unfold result_of, trace_of in *.
  destruct (handle_messages decode (map Ok good ++ rest) callback tt)
    as [[o u] t]. cbn [fst snd] in *. split; [exact Hr|].
  rewrite callbacks_app, Ht. cbn [map].
  destruct (delivered decode m). reflexivity.
Qed.

(** X19: [handle_messages] passes every message of the stream to the
    callback, decoded, once and in arrival order, and returns when the
    stream ends. *)
Theorem messages_dispatched_in_order (messages : list message) :
  Forall (handled decode callback) messages ->
  result_of (handle_messages decode (map Ok messages) callback tt) = Returns tt /\
  callbacks (trace_of (handle_messages decode (map Ok messages) callback tt))
  = map (delivered decode) messages.
Proof.
  intros Hall. destruct (handle_prefix messages [] Hall) as [Hr Ht].
  rewrite app_nil_r in Hr, Ht. split; [exact Hr|].
  rewrite Ht. cbn. apply app_nil_r.
Qed.

(** X20: [handle_messages] stops at the first failure and raises it: a
    failure of the stream or of the decoding leaves the callback uncalled
    for that message, a failure of the callback happens in its call; in
    each case no later message is looked at. *)
Theorem dispatch_stops_at_first_failure
        (good : list message) (rest : list (call message)) (e : exception) :
  Forall (handled decode callback) good ->
  (result_of (handle_messages decode (map Ok good ++ Throw e :: rest) callback tt)
   = Raises e /\
   callbacks (trace_of (handle_messages decode (map Ok good ++ Throw e :: rest)
                          callback tt))
   = map (delivered decode) good) /\
  (forall m,
      decode (payload m) = Throw e ->
      result_of (handle_messages decode (map Ok good ++ Ok m :: rest) callback tt)
      = Raises e /\
      callbacks (trace_of (handle_messages decode (map Ok good ++ Ok m :: rest)
                             callback tt))
      = map (delivered decode) good) /\
  (forall m s,
      decode (payload m) = Ok s ->
      callback (topic m) s = Throw e ->
      result_of (handle_messages decode (map Ok good ++ Ok m :: rest) callback tt)
      = Raises e /\
      callbacks (trace_of (handle_messages decode (map Ok good ++ Ok m :: rest)
                             callback tt))
      = map (delivered decode) good ++ [(topic m, s)]).
Proof.
  intros Hall. split; [|split].
  - destruct (handle_prefix good (Throw e :: rest) Hall) as [Hr Ht].
    rewrite Hr, Ht. cbn. rewrite app_nil_r. split; reflexivity.
  - intros m Hd.
    destruct (handle_prefix good (Ok m :: rest) Hall) as [Hr Ht].
    rewrite Hr, Ht. cbn [handle_messages].
    unfold bind, of_call, ret, raise, result_of, trace_of. cbn. rewrite Hd.
    cbn. rewrite app_nil_r. split; reflexivity.
  - intros m s Hd Hc.
    destruct (handle_prefix good (Ok m :: rest) Hall) as [Hr Ht].
    rewrite Hr, Ht. cbn [handle_messages].
    unfold bind, of_call, ret, raise, emit, result_of, trace_of. cbn.
    rewrite Hd. cbn. rewrite Hc. cbn. split; reflexivity.
Qed.
End Dispatch.

Lemma messages_dispatched_in_order_witness :
  HandleMessages.callbacks
    (trace_of (handle_messages Cases.ascii_decode
                 (map Ok [Cases.relay_on; Cases.relay_off]) Cases.accept tt))
  = [("boneio/relay/1/set", "ON"); ("boneio/relay/1/set", "OFF")].
Proof.
  refine (proj2 (messages_dispatched_in_order Cases.ascii_decode Cases.accept
                   [Cases.relay_on; Cases.relay_off] _)).
  repeat constructor; eexists; split; reflexivity.
Defined.

Lemma dispatch_stops_at_first_failure_witness :
  result_of (handle_messages Cases.ascii_decode
               (map Ok [Cases.relay_on] ++ [Throw MqttError; Ok Cases.relay_off])
               Cases.accept tt)
  = Raises MqttError /\
  HandleMessages.callbacks
    (trace_of (handle_messages Cases.ascii_decode
                 (map Ok [Cases.relay_on] ++ [Throw MqttError; Ok Cases.relay_off])
                 Cases.accept tt))
  = [("boneio/relay/1/set", "ON")].
Proof.
  refine (proj1 (dispatch_stops_at_first_failure
                   Cases.ascii_decode Cases.accept
                   [Cases.relay_on] [Ok Cases.relay_off] MqttError _)).
  repeat constructor; eexists; split; reflexivity.
Defined.

End MessagesFacts.

(** ** The options of the MQTT client *)

Module OptionsFacts.
Import ClientOptions.

Lemma get_set_same key v d : get key (set key v d) = Some v.
Proof.
  induction d as [|[k w] d IH]; cbn.
  - rewrite String.eqb_refl. reflexivity.
  - destruct (String.eqb key k) eqn:E; cbn; rewrite E; [reflexivity | exact IH].
Qed.

Lemma get_set_other key key' v d :
  key <> key' -> get key (set key' v d) = get key d.
Proof.
  intros Hne. induction d as [|[k w] d IH]; cbn.
  - destruct (String.eqb_spec key key'); [contradiction | reflexivity].
  - destruct (String.eqb key' k) eqn:E; cbn.
    + apply String.eqb_eq in E. subst k.
      destruct (String.eqb_spec key key'); [contradiction | reflexivity].
    + rewrite IH. reflexivity.
Qed.

Lemma get_default key v d :
  get key (if negb (contains key d) then set key v d else d)
  = match get key d with Some w => Some w | None => Some v end.
Proof.
  unfold contains. destruct (get key d) as [w|] eqn:E; cbn.
  - exact E.
  - apply get_set_same.
Qed.

Lemma get_default_other key key' v d :
  key <> key' ->
  get key (if negb (contains key' d) then set key' v d else d) = get key d.
Proof.
  intros Hne. destruct (negb (contains key' d)); [|reflexivity].
  apply get_set_other. exact Hne.
Qed.

(** X21: whatever options the caller passes, [__init__] forces
    [clean_session] to [True]; a [client_id] and a [logger] of the caller
    are kept and only supplied when missing; every other option (the
    credentials, for one) is handed on unchanged. *)
Theorem client_options_completed
        (generated_id PAHO : string) (client_options : dict) :
  let stored := client_options_of generated_id PAHO client_options in
  get "clean_session" stored = Some (Bool true) /\
  get "client_id" stored
  = match get "client_id" client_options with
    | Some v => Some v
    | None => Some (Str generated_id)
    end /\
  get "logger" stored
  = match get "logger" client_options with
    | Some v => Some v
    | None => Some (Logger PAHO)
    end /\
  (forall key,
      key <> "clean_session" -> key <> "client_id" -> key <> "logger" ->
      get key stored = get key client_options).
Proof.
  cbv zeta. unfold client_options_of. split; [apply get_set_same|].
  split; [|split].
  - rewrite get_set_other by discriminate.
    rewrite get_default_other by discriminate. apply get_default.
  - rewrite get_set_other by discriminate. rewrite get_default.
    rewrite get_default_other by discriminate. reflexivity.
  - intros key H1 H2 H3. rewrite get_set_other by exact H1.
    rewrite get_default_other by exact H3.
    apply get_default_other. exact H2.
Qed.

Lemma client_options_completed_witness :
  let given := [("username", Str "boneio"); ("clean_session", Bool false)] in
  get "username" (client_options_of "3zK7QmPq0aLw9XyB2cVd5E" "paho" given)
  = Some (Str "boneio") /\
  get "clean_session" (client_options_of "3zK7QmPq0aLw9XyB2cVd5E" "paho" given)
  = Some (Bool true).
Proof.
  cbv zeta.
  pose proof (client_options_completed
                "3zK7QmPq0aLw9XyB2cVd5E" "paho"
                [("username", Str "boneio"); ("clean_session", Bool false)]) as H.
  cbv zeta in H. destruct H as (H1 & _ & _ & H4).
  split; [|exact H1]. apply H4; discriminate.
Defined.

End OptionsFacts.
